(** * Segmentation CSV exporter (label_studio/data_export/formats/segmentation_csv_exporter.py)

    A shallow embedding of the brush-RLE decoder, the polygon rasteriser entry
    point, the bounding-box/area analyser, the intensity aggregator and the
    export loop, with the properties of the specification stated over them.

    Python values are modelled by [pyval]; exceptions by the [result] monad;
    floats, Pillow/NumPy pixel operations and the image-source resolver are
    interfaces ([Python], [Pillow], [World]) that the theorems quantify over.
    A str is a [string], a sequence of bytes: exact for ASCII text. *)

From Stdlib Require Import ZArith Lia List String Ascii Bool DecimalString.
From stdpp Require Import base option list strings gmap.

Local Open Scope Z_scope.

(** ** Exceptions *)

Inductive exn :=
  | TypeError
  | ValueError
  | AttributeError
  | OverflowError
  | IndexError
  | LibraryError.

Inductive result (A : Type) :=
  | Ok (a : A)
  | Raise (e : exn).
Arguments Ok {A} a.
Arguments Raise {A} e.

#[global] Instance result_ret : MRet result := λ A, Ok.
#[global] Instance result_bind : MBind result :=
  λ A B f m, match m with Ok a => f a | Raise e => Raise e end.

(** [try: m except Exception: h] *)
Definition try_except {A} (m : result A) (h : exn → A) : A :=
  match m with Ok a => a | Raise e => h e end.

Definition of_option {A} (e : exn) (o : option A) : result A :=
  match o with Some a => Ok a | None => Raise e end.

(** ** Python builtins the exporter relies on

    Floats are IEEE doubles in CPython; the exporter only moves them around,
    compares them with ints and converts them, so they are kept abstract.
    The str methods are CPython's (Unicode aware) and kept abstract too. *)

(** An ASCII character other than a capital letter *)
Definition uncased_ascii (c : ascii) : bool :=
  let n := nat_of_ascii c in
  ((n <? 65) || ((90 <? n) && (n <? 128)))%nat.

Class Python := {
  float : Type;
  (** [bool(f)], i.e. [f != 0.0] *)
  float_truthy : float → bool;
  (** [float(z)]; [None] is OverflowError *)
  float_of_int : Z → option float;
  (** exact comparison of a float with an int; [None] when unordered (nan) *)
  float_cmp_int : float → Z → option comparison;
  float_add : float → float → float;
  float_mul : float → float → float;
  float_div : float → float → float;
  (** the literal [100.0] *)
  float_100 : float;
  (** [round(f)]; [None] is OverflowError/ValueError (inf, nan) *)
  float_round : float → option Z;
  (** [int(f)]; [None] is OverflowError/ValueError (inf, nan) *)
  float_trunc : float → option Z;
  (** [float(s)] on a str; [None] is ValueError *)
  float_of_str : string → option float;
  (** [repr(f)] *)
  float_repr : float → string;
  (** [int(s)] on a str; [None] is ValueError *)
  int_of_str : string → option Z;
  (** [repr(s)] on a str (quotes and escapes) *)
  str_repr : string → string;
  (** [s.lower()] and [s.strip()] *)
  str_lower : string → string;
  str_strip : string → string;
  (** [json.dumps] of a list of pairs of floats *)
  json_dumps_points : list (float * float) → string;
  (** [lower] changes cased characters only *)
  str_lower_uncased :
    ∀ s, forallb uncased_ascii (list_ascii_of_string s) = true → str_lower s = s;
}.

(** ** Python values (JSON-like) *)

#[warnings="-register-all"]
Inductive pyval `{Python} :=
  | PNone
  | PBool (b : bool)
  | PInt (z : Z)
  | PFloat (f : float)
  | PStr (s : string)
  | PList (l : list pyval)
  | PDict (d : list (string * pyval)).

(** A boolean NumPy array of shape (height, width): the list of its rows *)
Definition mask := list (list bool).

(** ** Pillow and NumPy on pixel data *)

Class Pillow `{Python} := {
  image : Type;
  (** a [float32] array holding one band of an image *)
  band : Type;
  (** [image.mode], [image.width], [image.height] *)
  image_mode : image → string;
  image_width : image → Z;
  image_height : image → Z;
  (** [np.array(image.convert(L), dtype=np.float32)] *)
  gray_band : image → result band;
  (** the three arrays of [image.convert(RGB).split()] *)
  rgb_bands : image → result (band * band * band);
  (** [float(arr[mask_bool].mean())]; raises when the shapes differ *)
  masked_mean : band → mask → result float;
  (** [Image.new(L, (width, height), 0)], then [ImageDraw.Draw(img).polygon(pts,
      outline=1, fill=1)] read back as [np.array(img) > 0] *)
  canvas : Type;
  new_canvas : Z → Z → result canvas;
  polygon_mask : canvas → list (Z * Z) → result mask;
}.

(** ** The image source resolver and the project (external collaborators) *)

Record ImageSource := {
  url : string;
  path : option string;
  filename : string;
}.

(** An object tag of the parsed label config *)
Record config_input := {
  input_type : string;
  input_name : string;
  input_value : option string;
}.

Class World `{Pillow} := {
  (** [project.id] *)
  project_id : Z;
  (** [project.get_parsed_config()] as (control name, inputs) items; empty
      when the call raises *)
  parsed_config : list (string * list config_input);
  (** [_resolve_image_source(project, image_url, download_resources, hostname)] *)
  _resolve_image_source : string → bool → option string → ImageSource;
  (** [_open_image(project, source, download_resources)] *)
  _open_image : ImageSource → bool → option image;
  (** [id(res)] of the result at a position (task, annotation, result) *)
  object_id : nat → nat → nat → Z;
}.

Section Exporter.
Context `{World}.

Definition string_of_Z (z : Z) : string := NilZero.string_of_int (Z.to_int z).

(** [bool(v)] *)
Definition py_truthy (v : pyval) : bool :=
  match v with
  | PNone => false
  | PBool b => b
  | PInt z => negb (z =? 0)
  | PFloat f => float_truthy f
  | PStr s => negb (String.eqb s "")
  | PList l => match l with [] => false | _ => true end
  | PDict d => match d with [] => false | _ => true end
  end.

(** [a or b] on two values already at hand *)
Definition py_or (a b : pyval) : pyval := if py_truthy a then a else b.

(** [repr(v)]; [str(v)] differs from it on a str only *)
Fixpoint py_repr (v : pyval) : string :=
  match v with
  | PNone => "None"
  | PBool true => "True"
  | PBool false => "False"
  | PInt z => string_of_Z z
  | PFloat f => float_repr f
  | PStr s => str_repr s
  | PList l => "[" +:+ String.concat ", " (map py_repr l) +:+ "]"
  | PDict d =>
      "{" +:+ String.concat ", "
                (map (λ kv, let '(k, x) := kv in str_repr k +:+ ": " +:+ py_repr x) d)
          +:+ "}"
  end.

Definition py_str (v : pyval) : string :=
  match v with
  | PStr s => s
  | _ => py_repr v
  end.

(** [d.get(k)] on the items of a dict *)
Fixpoint dict_get (d : list (string * pyval)) (k : string) : pyval :=
  match d with
  | [] => PNone
  | (k', v) :: d' => if String.eqb k' k then v else dict_get d' k
  end.

(** [o.get(k)]: only a dict has the method *)
Definition py_get (o : pyval) (k : string) : result pyval :=
  match o with
  | PDict d => Ok (dict_get d k)
  | _ => Raise AttributeError
  end.

(** [iter(o)] run to the end, as [for x in o] and [list(o)] do *)
Definition py_iter (o : pyval) : result (list pyval) :=
  match o with
  | PList l => Ok l
  | PDict d => Ok (map (λ kv, PStr kv.1) d)
  | PStr s => Ok (map (λ c, PStr (String c "")) (list_ascii_of_string s))
  | PNone | PBool _ | PInt _ | PFloat _ => Raise TypeError
  end.

Definition is_list (v : pyval) : bool :=
  match v with PList _ => true | _ => false end.

(** [v == s] for a str literal [s] *)
Definition py_eq_str (v : pyval) (s : string) : bool :=
  match v with PStr s' => String.eqb s' s | _ => false end.

(** ** NumPy buffers

    A one-dimensional [uint8] array is a [list Z]; a two-dimensional array is
    the list of its rows. *)

(** [np.zeros(total, dtype=np.uint8)] *)
Definition np_zeros (total : Z) : result (list Z) :=
  if total <? 0 then Raise ValueError else Ok (replicate (Z.to_nat total) 0).

(** A slice bound brought into [0, len], as Python does for [a[i:j]] *)
Definition slice_index (len i : Z) : nat :=
  Z.to_nat (if i <? 0 then Z.max 0 (i + len) else Z.min i len).

(** A number that is an int or a float: the type of [idx] in the decoder *)
Inductive num :=
  | NInt (z : Z)
  | NFloat (f : float).

(** [flat[idx:end] = v]: slice bounds must be ints *)
Definition np_slice_fill (flat : list Z) (i e : num) (v : Z) : result (list Z) :=
  match i, e with
  | NInt a, NInt b =>
      let len := Z.of_nat (length flat) in
      let lo := slice_index len a in
      let hi := slice_index len b in
      Ok (take lo flat ++ replicate (hi - lo) v ++ drop (lo + (hi - lo)) flat)
  | _, _ => Raise TypeError
  end.

(** The rows of [arr.reshape((height, width))] *)
Fixpoint chunks {A} (rows cols : nat) (l : list A) : list (list A) :=
  match rows with
  | O => []
  | S rows' => take cols l :: chunks rows' cols (drop cols l)
  end.

(** [flat.reshape((height, width))]; one dimension may be [-1] (inferred) *)
Definition np_reshape {A} (l : list A) (height width : Z) : result (list (list A)) :=
  let len := Z.of_nat (length l) in
  if (0 <=? height) && (0 <=? width) then
    if height * width =? len
    then Ok (chunks (Z.to_nat height) (Z.to_nat width) l)
    else Raise ValueError
  else if (height =? -1) && (0 <? width) && (len mod width =? 0) then
    Ok (chunks (Z.to_nat (len / width)) (Z.to_nat width) l)
  else if (width =? -1) && (0 <? height) && (len mod height =? 0) then
    Ok (chunks (Z.to_nat height) (Z.to_nat (len / height)) l)
  else Raise ValueError.

(** ** Mask decoder: [_decode_brush_rle_to_mask] *)

(** [count <= 0] *)
Definition py_le_zero (count : pyval) : result bool :=
  match count with
  | PInt z => Ok (z <=? 0)
  | PBool b => Ok (Z.b2z b <=? 0)
  | PFloat f =>
      Ok (match float_cmp_int f 0 with Some Lt | Some Eq => true | _ => false end)
  | PNone | PStr _ | PList _ | PDict _ => Raise TypeError
  end.

(** [idx + count] *)
Definition num_add (i : num) (count : pyval) : result num :=
  match i, count with
  | NInt a, PInt z => Ok (NInt (a + z))
  | NInt a, PBool b => Ok (NInt (a + Z.b2z b))
  | NInt a, PFloat f =>
      g ← of_option OverflowError (float_of_int a); Ok (NFloat (float_add g f))
  | NFloat g, PInt z =>
      f ← of_option OverflowError (float_of_int z); Ok (NFloat (float_add g f))
  | NFloat g, PBool b =>
      f ← of_option OverflowError (float_of_int (Z.b2z b)); Ok (NFloat (float_add g f))
  | NFloat g, PFloat f => Ok (NFloat (float_add g f))
  | _, _ => Raise TypeError
  end.

(** [min(s, total)]: the second argument wins only when it is smaller *)
Definition num_min (s : num) (total : Z) : num :=
  match s with
  | NInt a => if total <? a then NInt total else NInt a
  | NFloat f =>
      match float_cmp_int f total with Some Gt => NInt total | _ => NFloat f end
  end.

(** [idx >= total] *)
Definition num_geb (i : num) (total : Z) : bool :=
  match i with
  | NInt a => total <=? a
  | NFloat f =>
      match float_cmp_int f total with Some Gt | Some Eq => true | _ => false end
  end.

Record decode_state := {
  flat : list Z;
  value : Z;
  idx : num;
}.

(** The body of [for count in rle], with its [continue] and [break] *)
Fixpoint decode_loop (total : Z) (rle : list pyval) (st : decode_state)
  : result decode_state :=
  match rle with
  | [] => Ok st
  | count :: rest =>
      nonpos ← py_le_zero count;
      if nonpos : bool then
        decode_loop total rest
          {| flat := flat st; value := 1 - value st; idx := idx st |}
      else
        s ← num_add (idx st) count;
        let end_ := num_min s total in
        flat' ← (if value st =? 1
                 then np_slice_fill (flat st) (idx st) end_ 1
                 else Ok (flat st));
        let st' := {| flat := flat'; value := 1 - value st; idx := end_ |} in
        if num_geb end_ total then Ok st' else decode_loop total rest st'
  end.

Definition _decode_brush_rle_to_mask (rle : list pyval) (width height : Z)
  : result mask :=
  let total := width * height in
  flat0 ← np_zeros total;
  st ← decode_loop total rle {| flat := flat0; value := 0; idx := NInt 0 |};
  grid ← np_reshape (flat st) height width;
  Ok (map (map (λ x, 0 <? x)) grid).

(** The decoder in the words of the specification (section 4.1): the current
    value starts at background; a run of length [L] fills [L] consecutive
    positions (at most the [remaining] ones) with the current value and flips
    it; a zero-or-negative run flips without consuming; consumption stops
    when the grid is full; what is left is background. *)
Fixpoint spec_runs (rle : list Z) (cur : bool) (remaining : nat) : list bool :=
  match rle with
  | [] => replicate remaining false
  | L :: rest =>
      if L <=? 0 then spec_runs rest (negb cur) remaining
      else
        let n := (Z.to_nat L `min` remaining)%nat in
        replicate n cur ++
        (if (remaining - n =? 0)%nat then []
         else spec_runs rest (negb cur) (remaining - n))
  end.

(** ** Polygon rasteriser: [_polygon_points_percent_to_px], [_rasterize_polygon] *)

(** [x_perc, y_perc = p] *)
Definition py_unpack2 (p : pyval) : result (pyval * pyval) :=
  items ← py_iter p;
  match items with
  | [a; b] => Ok (a, b)
  | _ => Raise ValueError
  end.

(** [float(z)] *)
Definition py_float_of_int (z : Z) : result float :=
  of_option OverflowError (float_of_int z).

(** [(perc / 100.0) * float(size)] *)
Definition percent_to_px (perc : pyval) (size : Z) : result float :=
  q ← match perc with
      | PInt z => g ← py_float_of_int z; Ok (float_div g float_100)
      | PBool b => g ← py_float_of_int (Z.b2z b); Ok (float_div g float_100)
      | PFloat f => Ok (float_div f float_100)
      | PNone | PStr _ | PList _ | PDict _ => Raise TypeError
      end;
  w ← py_float_of_int size;
  Ok (float_mul q w).

Fixpoint points_percent_to_px_loop (items : list pyval) (width height : Z)
  : result (list (float * float)) :=
  match items with
  | [] => Ok []
  | p :: rest =>
      '(x_perc, y_perc) ← py_unpack2 p;
      x ← percent_to_px x_perc width;
      y ← percent_to_px y_perc height;
      px_points ← points_percent_to_px_loop rest width height;
      Ok ((x, y) :: px_points)
  end.

Definition _polygon_points_percent_to_px (points : pyval) (width height : Z)
  : result (list (float * float)) :=
  items ← py_iter points;
  points_percent_to_px_loop items width height.

(** [np.zeros((height, width), dtype=bool)] *)
Definition np_zeros2 (height width : Z) : result mask :=
  if (height <? 0) || (width <? 0) then Raise ValueError
  else Ok (replicate (Z.to_nat height) (replicate (Z.to_nat width) false)).

(** [[(int(round(x)), int(round(y))) for x, y in points_px]] *)
Fixpoint round_points (points_px : list (float * float)) : result (list (Z * Z)) :=
  match points_px with
  | [] => Ok []
  | (x, y) :: rest =>
      xi ← of_option OverflowError (float_round x);
      yi ← of_option OverflowError (float_round y);
      pts ← round_points rest;
      Ok ((xi, yi) :: pts)
  end.

Definition _rasterize_polygon (points_px : list (float * float)) (width height : Z)
  : result mask :=
  match points_px with
  | [] => np_zeros2 height width
  | _ =>
      img ← new_canvas width height;
      pts ← round_points points_px;
      polygon_mask img pts
  end.

(** ** Region geometry analyser: [_compute_bbox_and_area] *)

(** The column indices of the true entries of a row, from column [c] on *)
Fixpoint true_cols (c : Z) (row : list bool) : list Z :=
  match row with
  | [] => []
  | b :: row' => (if b then [c] else []) ++ true_cols (c + 1) row'
  end.

(** The (row, column) pairs of the true entries in row-major order *)
Fixpoint where_rows (r : Z) (m : mask) : list (Z * Z) :=
  match m with
  | [] => []
  | row :: m' => map (λ c, (r, c)) (true_cols 0 row) ++ where_rows (r + 1) m'
  end.

(** [np.where(mask)]: the row indices and the column indices *)
Definition np_where (m : mask) : list Z * list Z :=
  let ps := where_rows 0 m in (map fst ps, map snd ps).

(** [arr.min()] and [arr.max()] of a non-empty array *)
Definition np_min (l : list Z) : Z :=
  match l with [] => 0 | x :: l' => foldl Z.min x l' end.
Definition np_max (l : list Z) : Z :=
  match l with [] => 0 | x :: l' => foldl Z.max x l' end.

(** [mask.sum()] *)
Definition np_sum (m : mask) : Z :=
  foldr (λ row acc, foldr (λ (b : bool) a, Z.b2z b + a) 0 row + acc) 0 m.

(** [mask.any()] *)
Definition np_any (m : mask) : bool :=
  existsb (existsb id) m.

Definition _compute_bbox_and_area (m : mask) : Z * Z * Z * Z * Z :=
  let '(ys, xs) := np_where m in
  if (length xs =? 0)%nat || (length ys =? 0)%nat then (0, 0, 0, 0, 0)
  else
    let x_min := np_min xs in
    let y_min := np_min ys in
    let x_max := np_max xs in
    let y_max := np_max ys in
    let w := Z.max 0 (x_max - x_min) in
    let h := Z.max 0 (y_max - y_min) in
    let area := np_sum m in
    (x_min, y_min, w, h, area).

(** The entry of a mask at row [r] and column [c]; false outside the mask *)
Definition pixel (m : mask) (r c : Z) : bool :=
  if (r <? 0) || (c <? 0) then false
  else default false (row ← m !! Z.to_nat r; row !! Z.to_nat c).

(** ** Intensity aggregator: [_compute_intensities] *)

Definition means : Type := option float * option float * option float * option float.

Definition single_channel_modes : list string := ["L"; "I"; "I;16"; "F"].

Definition _compute_intensities (img : image) (m : mask) : result means :=
  if np_sum m =? 0 then Ok (None, None, None, None)
  else
    let mode := image_mode img in
    let mask_bool := m in
    gray_np ← gray_band img;
    mean_gray ← (if np_any mask_bool
                 then g ← masked_mean gray_np mask_bool; Ok (Some g)
                 else Ok None);
    if existsb (String.eqb mode) single_channel_modes
    then Ok (mean_gray, None, None, None)
    else
      '(r_np, g_np, b_np) ← rgb_bands img;
      mean_r ← (if np_any mask_bool
                then x ← masked_mean r_np mask_bool; Ok (Some x)
                else Ok None);
      mean_g ← (if np_any mask_bool
                then x ← masked_mean g_np mask_bool; Ok (Some x)
                else Ok None);
      mean_b ← (if np_any mask_bool
                then x ← masked_mean b_np mask_bool; Ok (Some x)
                else Ok None);
      Ok (mean_gray, mean_r, mean_g, mean_b).

(** ** Export pipeline: [export_segmentation_metrics] *)

Definition _first_label_from_result_value (value : pyval) (key : string)
  : result string :=
  v ← py_get value key;
  let labels := py_or v (PList []) in
  match labels with
  | PList l => Ok (String.concat ";" (map py_str l))
  | _ => Ok (py_str labels)
  end.

(** [val[1:] if val.startswith($) else val] *)
Definition strip_dollar (val : string) : string :=
  match val with
  | String "$" rest => rest
  | _ => val
  end.

(** The object tags in the order the two nested loops visit them *)
Definition config_objects : list config_input :=
  concat (map snd parsed_config).

Definition _get_object_value_key_for_result (result_to_name : pyval)
  : option string :=
  match find (λ obj, String.eqb (input_type obj) "Image"
                     && py_eq_str result_to_name (input_name obj))
             config_objects with
  | Some obj => Some (strip_dollar (default "" (input_value obj)))
  | None =>
      match find (λ obj, String.eqb (input_type obj) "Image") config_objects with
      | Some obj => Some (strip_dollar (default "" (input_value obj)))
      | None => None
      end
  end.

(** What the exporter does to the outside world, in order *)
Inductive event :=
  | EvLog (msg : string)
  | EvOpenImage (source : ImageSource)
  | EvComputeIntensities (source : ImageSource).

(** One CSV row; the keys are [CSV_COLUMNS] *)
Record row := {
  image_filename : string;
  task_id : pyval;
  annotation_id : pyval;
  region_id : pyval;
  label : string;
  shape_type : string;
  bbox_x_px : Z;
  bbox_y_px : Z;
  x_length_px : Z;
  y_length_px : Z;
  area_px : Z;
  mean_gray : pyval;
  mean_r : pyval;
  mean_g : pyval;
  mean_b : pyval;
  polygon_points_px : string;
}.

(** [m if m is not None else the empty string] *)
Definition cell (m : option float) : pyval :=
  match m with
  | Some f => PFloat f
  | None => PStr ""
  end.

(** Every row of the table, whatever its image *)
Definition all_rows (rbi : list (string * list row)) : list row :=
  concat (map snd rbi).

(** [str(region_id)] of a row: what [processed_region_ids] holds *)
Definition row_region_key (r : row) : string := py_str (region_id r).

(** The state of the loop over the results of one annotation *)
Record loop_state := {
  rows_by_image : list (string * list row);
  processed_region_ids : gset string;
  trace : list event;
}.

(** [rows_by_image[key].append(r)] on a [defaultdict(list)] *)
Fixpoint rows_append (rbi : list (string * list row)) (key : string) (r : row)
  : list (string * list row) :=
  match rbi with
  | [] => [(key, [r])]
  | (k, rows) :: rest =>
      if String.eqb k key then (k, rows ++ [r]) :: rest
      else (k, rows) :: rows_append rest key r
  end.

(** [s.lower()] on a value: only a str has the method *)
Definition py_lower (v : pyval) : result string :=
  match v with
  | PStr s => Ok (str_lower s)
  | _ => Raise AttributeError
  end.

(** [int(v)] *)
Definition py_int (v : pyval) : result Z :=
  match v with
  | PInt z => Ok z
  | PBool b => Ok (Z.b2z b)
  | PFloat f => of_option OverflowError (float_trunc f)
  | PStr s => of_option ValueError (int_of_str s)
  | PNone | PList _ | PDict _ => Raise TypeError
  end.

(** [next(iter(data.keys()), None)] *)
Definition first_key (data : pyval) : result (option string) :=
  match data with
  | PDict d => Ok (head (map fst d))
  | _ => Raise AttributeError
  end.

(** [data.get(data_key) if data_key in data else next(iter(data.values()), None)] *)
Definition lookup_image_url (data : pyval) (data_key : option string)
  : result pyval :=
  match data with
  | PDict d =>
      let first_value := default PNone (head (map snd d)) in
      Ok match data_key with
         | Some k =>
             if existsb (String.eqb k) (map fst d) then dict_get d k
             else first_value
         | None => first_value
         end
  | PList _ | PStr _ => Raise AttributeError
  | PNone | PBool _ | PInt _ | PFloat _ => Raise TypeError
  end.

(** Lines 323-325: the image reference a result points at *)
Definition image_url_for (data to_name : pyval) : result pyval :=
  data_key ← match _get_object_value_key_for_result to_name with
             | Some k => if String.eqb k "" then first_key data else Ok (Some k)
             | None => first_key data
             end;
  lookup_image_url data data_key.

(** [res.get(field) or value.get(field)] *)
Definition declared_size (res value : pyval) (field : string) : result pyval :=
  a ← py_get res field;
  if py_truthy a then Ok a else py_get value field.

(** [int(v) if v else 0] *)
Definition int_or_zero (v : pyval) : result Z :=
  if py_truthy v then py_int v else Ok 0.

(** Lines 336-345: probe the image for its size when it was not declared *)
Definition probe_size (download_resources : bool) (source : ImageSource)
    (original_width original_height : Z) (tr : list event)
  : Z * Z * list event :=
  if ((original_width =? 0) || (original_height =? 0)) && download_resources then
    match _open_image source download_resources with
    | Some probe =>
        (image_width probe, image_height probe, tr ++ [EvOpenImage source])
    | None => (original_width, original_height, tr ++ [EvOpenImage source])
    end
  else (original_width, original_height, tr).

(** Line 351 *)
Definition detect_mask (rtype : string) (value : pyval) : result bool :=
  if String.eqb rtype "brushlabels" then Ok true
  else
    fmt ← py_get value "format";
    if py_eq_str fmt "rle" then rle ← py_get value "rle"; Ok (is_list rle)
    else Ok false.

(** Line 352, read as a truth value *)
Definition detect_polygon (rtype : string) (value : pyval) : result bool :=
  if String.eqb rtype "polygonlabels" then Ok true
  else
    pts ← py_get value "points";
    if is_list pts then Ok (py_truthy pts) else Ok false.

(** [own or label_by_region.get(region_id_str, the empty string)] *)
Definition resolve_label (own : string) (label_by_region : gmap string string)
    (region_id_str : string) : string :=
  if String.eqb own "" then default "" (label_by_region !! region_id_str) else own.

(** Lines 388-394: the means computed from the pixels of the image, and the
    calls made for them *)
Definition pixel_means (download_resources : bool) (source : ImageSource)
    (m : mask) : means * list event :=
  match _open_image source download_resources with
  | Some pil_img =>
      match _compute_intensities pil_img m with
      | Ok ms => (ms, [EvOpenImage source; EvComputeIntensities source])
      | Raise _ =>
          ((None, None, None, None),
           [EvOpenImage source; EvComputeIntensities source;
            EvLog "Failed to compute intensities"])
      end
  | None => ((None, None, None, None), [EvOpenImage source])
  end.

(** Lines 383-394: the four means of a region and the calls made for them *)
Definition region_means (download_resources : bool)
    (textarea_by_region : gmap string float) (region_id_str : string)
    (source : ImageSource) (m : mask) : means * list event :=
  match textarea_by_region !! region_id_str with
  | Some tg => ((Some tg, None, None, None), [])
  | None => pixel_means download_resources source m
  end.

(** Lines 362-379: the mask of a region with its shape type, own label and
    pixel polygon; [None] is the [continue] of a failed decode or of an
    unrecognised shape *)
Definition region_shape (is_mask is_polygon : bool) (value : pyval)
    (original_width original_height : Z)
  : result (option (mask * string * string * list (float * float))) :=
  if is_mask then
    r ← py_get value "rle";
    let rle := py_or r (PList []) in
    match (items ← py_iter rle;
           _decode_brush_rle_to_mask items original_width original_height) with
    | Raise _ => Ok None
    | Ok m =>
        own ← _first_label_from_result_value value "brushlabels";
        Ok (Some (m, "mask", own, []))
    end
  else if is_polygon then
    pts ← py_get value "points";
    let points := py_or pts (PList []) in
    poly_points_px ←
      _polygon_points_percent_to_px points original_width original_height;
    m ← _rasterize_polygon poly_points_px original_width original_height;
    own ← _first_label_from_result_value value "polygonlabels";
    Ok (Some (m, "polygon", own, poly_points_px))
  else Ok None.

(** What lines 319-358 establish about a result before it is looked up in
    [processed_region_ids] *)
Record region_context := {
  ctx_rtype : string;
  ctx_value : pyval;
  ctx_source : ImageSource;
  ctx_width : Z;
  ctx_height : Z;
  ctx_is_mask : bool;
  ctx_is_polygon : bool;
  ctx_region_id : pyval;
}.

(** Lines 319-358; [res_object_id] is [id(res)], [tr] the calls made so far.
    [None] is one of the two [continue]s (no image url, no size). *)
Definition resolve_region (download_resources : bool) (hostname : option string)
    (data : pyval) (res_object_id : Z) (tr : list event) (res : pyval)
  : result (list event * option region_context) :=
  ty ← py_get res "type";
  rtype ← py_lower (py_or ty (PStr ""));
  v ← py_get res "value";
  let value := py_or v (PDict []) in
  tn ← py_get res "to_name";
  let to_name := py_or tn (PStr "") in
  image_url ← image_url_for data to_name;
  if negb (py_truthy image_url)
  then Ok (tr ++ [EvLog "Skip region without image url"], None)
  else
    let source :=
      _resolve_image_source (py_str image_url) download_resources hostname in
    ow ← declared_size res value "original_width";
    oh ← declared_size res value "original_height";
    declared_width ← int_or_zero ow;
    declared_height ← int_or_zero oh;
    let '(original_width, original_height, tr') :=
      probe_size download_resources source declared_width declared_height tr in
    if (original_width =? 0) || (original_height =? 0) then
      Ok (tr' ++ [EvLog "Skip region without original image size (no fallback available)"],
          None)
    else
      is_mask ← detect_mask rtype value;
      is_polygon ← detect_polygon rtype value;
      rid ← py_get res "id";
      let region_id_ :=
        match rid with
        | PNone => PStr (rtype +:+ "-" +:+ string_of_Z res_object_id)
        | _ => rid
        end in
      Ok (tr', Some {| ctx_rtype := rtype; ctx_value := value;
                       ctx_source := source;
                       ctx_width := original_width;
                       ctx_height := original_height;
                       ctx_is_mask := is_mask; ctx_is_polygon := is_polygon;
                       ctx_region_id := region_id_ |}).

(** Lines 396-413 *)
Definition make_row (task_id_ ann_id : pyval) (ctx : region_context)
    (label_ shape_type_ : string) (box : Z * Z * Z * Z * Z) (ms : means)
    (poly_points_px : list (float * float)) : row :=
  let '(bbox_x, bbox_y, w, h, area) := box in
  let '(mean_gray_, mean_r_, mean_g_, mean_b_) := ms in
  {| image_filename := filename (ctx_source ctx);
     task_id := task_id_;
     annotation_id := ann_id;
     region_id := ctx_region_id ctx;
     label := label_;
     shape_type := shape_type_;
     bbox_x_px := bbox_x;
     bbox_y_px := bbox_y;
     x_length_px := w;
     y_length_px := h;
     area_px := area;
     mean_gray := cell mean_gray_;
     mean_r := cell mean_r_;
     mean_g := cell mean_g_;
     mean_b := cell mean_b_;
     polygon_points_px :=
       match poly_points_px with
       | [] => ""
       | _ => json_dumps_points poly_points_px
       end |}.

(** [f"{source.filename}__task_{task_id}"] *)
Definition group_key (source : ImageSource) (task_id_ : pyval) : string :=
  filename source +:+ "__task_" +:+ py_str task_id_.

(** Lines 359-418 for a result that got its context; [tr] is the trace after
    [resolve_region] *)
Definition emit_region (download_resources : bool) (task_id_ ann_id : pyval)
    (label_by_region : gmap string string)
    (textarea_by_region : gmap string float)
    (st : loop_state) (tr : list event) (ctx : region_context)
  : result loop_state :=
  let region_id_str := py_str (ctx_region_id ctx) in
  if decide (region_id_str ∈ processed_region_ids st) then
    Ok {| rows_by_image := rows_by_image st;
          processed_region_ids := processed_region_ids st;
          trace := tr |}
  else
    shape ← region_shape (ctx_is_mask ctx) (ctx_is_polygon ctx) (ctx_value ctx)
              (ctx_width ctx) (ctx_height ctx);
    match shape with
    | None =>
        Ok {| rows_by_image := rows_by_image st;
              processed_region_ids := processed_region_ids st;
              trace := if ctx_is_mask ctx
                       then tr ++ [EvLog "Failed to decode RLE"] else tr |}
    | Some (m, shape_type_, own, poly_points_px) =>
        let label_ := resolve_label own label_by_region region_id_str in
        let box := _compute_bbox_and_area m in
        let '(ms, evs) :=
          region_means download_resources textarea_by_region region_id_str
            (ctx_source ctx) m in
        let r := make_row task_id_ ann_id ctx label_ shape_type_ box ms
                   poly_points_px in
        let key := group_key (ctx_source ctx) task_id_ in
        Ok {| rows_by_image := rows_append (rows_by_image st) key r;
              processed_region_ids := processed_region_ids st ∪ {[region_id_str]};
              trace := tr ++ evs |}
    end.

(** The body of the second [for res in results] (lines 319-418) *)
Definition process_result (download_resources : bool) (hostname : option string)
    (task_id_ ann_id data : pyval)
    (label_by_region : gmap string string)
    (textarea_by_region : gmap string float)
    (res_object_id : Z) (st : loop_state) (res : pyval) : result loop_state :=
  '(tr, octx) ← resolve_region download_resources hostname data res_object_id
                  (trace st) res;
  match octx with
  | None =>
      Ok {| rows_by_image := rows_by_image st;
            processed_region_ids := processed_region_ids st;
            trace := tr |}
  | Some ctx =>
      emit_region download_resources task_id_ ann_id label_by_region
        textarea_by_region st tr ctx
  end.

(** The body of the first [for res in results] (lines 297-315): labels and
    textarea means by region id *)
Definition prescan_result
    (acc : gmap string string * gmap string float) (res : pyval)
  : result (gmap string string * gmap string float) :=
  let '(label_by_region, textarea_by_region) := acc in
  v ← py_get res "value";
  let value := py_or v (PDict []) in
  rid ← py_get res "id";
  match rid with
  | PNone => Ok acc
  | _ =>
      bl ← py_get value "brushlabels";
      lb ← (if py_truthy bl
            then l ← _first_label_from_result_value value "brushlabels"; Ok (Some l)
            else
              pl ← py_get value "polygonlabels";
              if py_truthy pl
              then l ← _first_label_from_result_value value "polygonlabels"; Ok (Some l)
              else Ok None);
      let label_by_region' :=
        match lb with
        | Some l =>
            if String.eqb l "" then label_by_region
            else <[py_str rid := l]> label_by_region
        | None => label_by_region
        end in
      ty ← py_get res "type";
      if py_eq_str ty "textarea" then
        t ← py_get value "text";
        let texts := py_or t (PList []) in
        match texts with
        | PList (t0 :: _) =>
            match float_of_str (str_strip (py_str t0)) with
            | Some f => Ok (label_by_region', <[py_str rid := f]> textarea_by_region)
            | None => Ok (label_by_region', textarea_by_region)
            end
        | _ => Ok (label_by_region', textarea_by_region)
        end
      else Ok (label_by_region', textarea_by_region)
  end.

Fixpoint prescan (results : list pyval)
    (acc : gmap string string * gmap string float)
  : result (gmap string string * gmap string float) :=
  match results with
  | [] => Ok acc
  | res :: rest => acc' ← prescan_result acc res; prescan rest acc'
  end.

(** The second [for res in results]; [ri] counts the results visited *)
Fixpoint results_loop (download_resources : bool) (hostname : option string)
    (task_id_ ann_id data : pyval)
    (label_by_region : gmap string string)
    (textarea_by_region : gmap string float)
    (ti ai ri : nat) (results : list pyval) (st : loop_state)
  : result loop_state :=
  match results with
  | [] => Ok st
  | res :: rest =>
      st' ← process_result download_resources hostname task_id_ ann_id data
              label_by_region textarea_by_region (object_id ti ai ri) st res;
      results_loop download_resources hostname task_id_ ann_id data
        label_by_region textarea_by_region ti ai (S ri) rest st'
  end.

(** The rows and the calls made so far: what survives from one annotation
    to the next *)
Definition export_state : Type := list (string * list row) * list event.

(** The body of [for ann in annotations] (lines 291-418) *)
Definition process_annotation (download_resources : bool)
    (hostname : option string) (task_id_ data : pyval) (ti ai : nat)
    (st : export_state) (ann : pyval) : result export_state :=
  ann_id ← py_get ann "id";
  r ← py_get ann "result";
  results ← py_iter (py_or r (PList []));
  '(label_by_region, textarea_by_region) ← prescan results (∅, ∅);
  st' ← results_loop download_resources hostname task_id_ ann_id data
          label_by_region textarea_by_region ti ai 0 results
          {| rows_by_image := st.1; processed_region_ids := ∅; trace := st.2 |};
  Ok (rows_by_image st', trace st').

Fixpoint annotations_loop (download_resources : bool)
    (hostname : option string) (task_id_ data : pyval) (ti ai : nat)
    (annotations : list pyval) (st : export_state) : result export_state :=
  match annotations with
  | [] => Ok st
  | ann :: rest =>
      st' ← process_annotation download_resources hostname task_id_ data ti ai st ann;
      annotations_loop download_resources hostname task_id_ data ti (S ai) rest st'
  end.

(** The body of [for task in tasks] (lines 286-418) *)
Definition process_task (download_resources : bool) (hostname : option string)
    (ti : nat) (st : export_state) (task : pyval) : result export_state :=
  task_id_ ← py_get task "id";
  d ← py_get task "data";
  let data := py_or d (PDict []) in
  a ← py_get task "annotations";
  annotations ← py_iter (py_or a (PList []));
  annotations_loop download_resources hostname task_id_ data ti 0 annotations st.

Fixpoint tasks_loop (download_resources : bool) (hostname : option string)
    (ti : nat) (tasks : list pyval) (st : export_state) : result export_state :=
  match tasks with
  | [] => Ok st
  | task :: rest =>
      st' ← process_task download_resources hostname ti st task;
      tasks_loop download_resources hostname (S ti) rest st'
  end.

(** ** Writing the archive (lines 420-451) *)

Fixpoint replace_char (a b : ascii) (s : string) : string :=
  match s with
  | EmptyString => EmptyString
  | String c s' => String (if Ascii.eqb c a then b else c) (replace_char a b s')
  end.

(** [s.endswith(suffix)] *)
Definition str_endswith (s suffix : string) : bool :=
  let n := String.length s in
  let k := String.length suffix in
  (k <=? n)%nat && String.eqb (substring (n - k) k s) suffix.

(** Lines 423-425 *)
Definition csv_name (key : string) : string :=
  let safe_name := replace_char "092" "_" (replace_char "/" "_" key) in
  if str_endswith (str_lower safe_name) ".csv" then safe_name
  else safe_name +:+ ".csv".

Inductive file :=
  | CsvFile (header : list string) (rows : list row)
  | TextFile (content : string).

Definition CSV_COLUMNS : list string :=
  ["image_filename"; "task_id"; "annotation_id"; "region_id"; "label";
   "shape_type"; "bbox_x_px"; "bbox_y_px"; "x_length_px"; "y_length_px";
   "area_px"; "mean_gray"; "mean_r"; "mean_g"; "mean_b"; "polygon_points_px"].

(** [for key, rows in rows_by_image.items()]: one file per key, a later file
    of the same name replacing an earlier one *)
Fixpoint write_csvs (rbi : list (string * list row)) (dir : gmap string file)
  : gmap string file :=
  match rbi with
  | [] => dir
  | (key, rows) :: rest =>
      write_csvs rest (<[csv_name key := CsvFile CSV_COLUMNS rows]> dir)
  end.

Definition readme_text : string :=
  "No segmentation rows were generated. Ensure annotations include Brush (RLE) or Polygon regions, and that original image dimensions are present.".

(** [any(rows_by_image.values())] *)
Definition produced_any (rbi : list (string * list row)) : bool :=
  existsb (λ kv, match kv.2 with [] => false | _ => true end) rbi.

(** The files of the archive, its content type and its name *)
Definition export_segmentation_metrics (tasks : list pyval)
    (download_resources : bool) (hostname : option string)
  : result (gmap string file * string * string) :=
  '(rbi, _) ← tasks_loop download_resources hostname 0 tasks ([], []);
  let dir := write_csvs rbi ∅ in
  let dir := if produced_any rbi then dir
             else <["README.txt" := TextFile readme_text]> dir in
  Ok (dir, "application/zip",
      "project-" +:+ string_of_Z project_id +:+ "-segmentation.csv.zip").

End Exporter.

(** ** An instance to run the model on concrete inputs

    Integers stand for floats, a grayscale pixel grid for an image, and every
    image reference resolves to one fixed 2x2 picture. *)

Module Toy.

Fixpoint digits_value (s : string) (acc : Z) : option Z :=
  match s with
  | EmptyString => Some acc
  | String c s' =>
      match Ascii.is_nat c with
      | Some n => digits_value s' (10 * acc + Z.of_nat n)
      | None => None
      end
  end.

Definition parse_int (s : string) : option Z :=
  match s with
  | EmptyString => None
  | String "-" EmptyString => None
  | String "-" s' => Z.opp <$> digits_value s' 0
  | _ => digits_value s 0
  end.

Definition lower_ascii (c : ascii) : ascii :=
  let n := nat_of_ascii c in
  if ((65 <=? n) && (n <=? 90))%nat then ascii_of_nat (n + 32) else c.

Fixpoint lower (s : string) : string :=
  match s with
  | EmptyString => EmptyString
  | String c s' => String (lower_ascii c) (lower s')
  end.

Lemma lower_uncased s :
  forallb uncased_ascii (list_ascii_of_string s) = true → lower s = s.
Proof.
  induction s as [|c s IH]; simpl; [done|].
  intros [Hc Hs]%andb_prop. rewrite IH by done. f_equal.
  unfold lower_ascii, uncased_ascii in *.
  destruct (nat_of_ascii c <? 65)%nat eqn:E1.
  - apply Nat.ltb_lt in E1.
    replace (65 <=? nat_of_ascii c)%nat with false; [done|].
    symmetry. apply Nat.leb_gt. lia.
  - simpl in Hc. apply andb_prop in Hc as [E2 _]. apply Nat.ltb_lt in E2.
    replace (nat_of_ascii c <=? 90)%nat with false; [by rewrite andb_false_r|].
    symmetry. apply Nat.leb_gt. lia.
Qed.

Fixpoint lstrip (s : string) : string :=
  match s with
  | String c s' => if Ascii.is_space c then lstrip s' else s
  | EmptyString => EmptyString
  end.

Definition strip (s : string) : string :=
  String.rev (lstrip (String.rev (lstrip s))).

#[export] Instance python : Python := {|
  float := Z;
  float_truthy f := negb (f =? 0);
  float_of_int z := Some z;
  float_cmp_int f z := Some (f ?= z);
  float_add := Z.add;
  float_mul := Z.mul;
  float_div := Z.div;
  float_100 := 100;
  float_round f := Some f;
  float_trunc f := Some f;
  float_of_str := parse_int;
  float_repr := string_of_Z;
  int_of_str := parse_int;
  str_repr s := "'" +:+ s +:+ "'";
  str_lower := lower;
  str_strip := strip;
  str_lower_uncased := lower_uncased;
  json_dumps_points pts :=
    "[" +:+ String.concat ", "
              (map (λ p, "[" +:+ string_of_Z p.1 +:+ ", " +:+ string_of_Z p.2 +:+ "]") pts)
        +:+ "]";
|}.

(** The mean of the pixels under the mask (integer division) *)
Definition mean_under (b : list (list Z)) (m : mask) : result Z :=
  if decide (map length b = map length m) then
    let picked :=
      concat (zip_with (λ brow mrow,
                          omap (λ bm, if bm.2 : bool then Some bm.1 else None)
                               (zip brow mrow)) b m) in
    match picked with
    | [] => Raise ValueError
    | _ => Ok (foldr Z.add 0 picked / Z.of_nat (length picked))
    end
  else Raise IndexError.

(** Marks the vertices that fall inside the canvas *)
Definition mark_vertices (size : Z * Z) (pts : list (Z * Z)) : mask :=
  let '(w, h) := size in
  map (λ r, map (λ c, bool_decide ((Z.of_nat c, Z.of_nat r) ∈ pts))
                (seq 0 (Z.to_nat w)))
      (seq 0 (Z.to_nat h)).

#[export] Instance pillow : Pillow := {|
  image := list (list Z);
  band := list (list Z);
  image_mode _ := "L";
  image_width img := Z.of_nat (length (default [] (head img)));
  image_height img := Z.of_nat (length img);
  gray_band img := Ok img;
  rgb_bands img := Ok (img, img, img);
  masked_mean := mean_under;
  canvas := Z * Z;
  new_canvas w h := if (w <? 0) || (h <? 0) then Raise ValueError else Ok (w, h);
  polygon_mask size pts := Ok (mark_vertices size pts);
|}.

(** The same library with images of a given mode *)
Definition pillow_of_mode (mode : string) : @Pillow python := {|
  image := list (list Z);
  band := list (list Z);
  image_mode _ := mode;
  image_width img := Z.of_nat (length (default [] (head img)));
  image_height img := Z.of_nat (length img);
  gray_band img := Ok img;
  rgb_bands img := Ok (img, img, img);
  masked_mean := mean_under;
  canvas := Z * Z;
  new_canvas w h := if (w <? 0) || (h <? 0) then Raise ValueError else Ok (w, h);
  polygon_mask size pts := Ok (mark_vertices size pts);
|}.

#[export] Instance world : World := {|
  project_id := 1;
  parsed_config :=
    [("label", [ {| input_type := "Image"; input_name := "image";
                    input_value := Some "$image" |} ])];
  _resolve_image_source image_url _ _ :=
    {| url := image_url; path := None; filename := image_url |};
  _open_image _ _ := Some [[10; 20]; [30; 40]];
  object_id ti ai ri := 1000 + Z.of_nat ri;
|}.

End Toy.

(** ** Sample inputs *)

Section Samples.
Context `{Python}.

(** A polygon region with a vertex of one coordinate: a malformed payload *)
Definition malformed_polygon_result : pyval :=
  PDict [("id", PStr "p1"); ("type", PStr "polygonlabels");
         ("to_name", PStr "image");
         ("original_width", PInt 10); ("original_height", PInt 10);
         ("value", PDict [("points", PList [PList [PInt 10]]);
                          ("polygonlabels", PList [PStr "cell"])])].

(** A brush region of a 2x2 image, with run lengths or without any *)
Definition brush_result (rle : list Z) : pyval :=
  PDict [("id", PStr "r1"); ("type", PStr "brushlabels");
         ("to_name", PStr "image");
         ("original_width", PInt 2); ("original_height", PInt 2);
         ("value", PDict [("format", PStr "rle"); ("rle", PList (PInt <$> rle));
                          ("brushlabels", PList [PStr "cell"])])].


(** A textarea result for the same region id *)
Definition textarea_result (text : string) : pyval :=
  PDict [("id", PStr "r1"); ("type", PStr "textarea");
         ("to_name", PStr "image");
         ("value", PDict [("text", PList [PStr text])])].


(** A brush region declared 3 pixels wide and 1 pixel high *)
Definition wide_brush_result : pyval :=
  PDict [("id", PStr "r3"); ("type", PStr "brushlabels");
         ("to_name", PStr "image");
         ("original_width", PInt 3); ("original_height", PInt 1);
         ("value", PDict [("format", PStr "rle");
                          ("rle", PList [PInt 1; PInt 2]);
                          ("brushlabels", PList [PStr "cell"])])].

Definition sample_data : pyval := PDict [("image", PStr "a.png")].

(** A task with one image and one annotation holding [results] *)
Definition sample_task (results : list pyval) : pyval :=
  PDict [("id", PInt 7); ("data", PDict [("image", PStr "a.png")]);
         ("annotations",
          PList [PDict [("id", PInt 3); ("result", PList results)]])].

End Samples.

(** Inputs and loop states over the instance above *)

Definition toy_annotation (results : list (@pyval Toy.python))
  : @pyval Toy.python :=
  PDict [("id", PInt 3); ("result", PList results)].

Definition fresh_state : @loop_state Toy.python :=
  {| rows_by_image := []; processed_region_ids := ∅; trace := [] |}.

Definition seen_r1 : @loop_state Toy.python :=
  {| rows_by_image := []; processed_region_ids := {["r1"]}; trace := [] |}.

(** A row of the group a.png__task_7 *)
Definition sample_row : @row Toy.python :=
  {| image_filename := "a.png"; task_id := PInt 7; annotation_id := PInt 3;
     region_id := PStr "r0"; label := "cell"; shape_type := "mask";
     bbox_x_px := 0; bbox_y_px := 0; x_length_px := 0; y_length_px := 0;
     area_px := 1;
     mean_gray := PStr ""; mean_r := PStr ""; mean_g := PStr "";
     mean_b := PStr ""; polygon_points_px := "" |}.

(** A task with two brush regions of one image. The second is declared with
    another size than the image has, so that its intensities cannot be
    computed *)
Definition sample_tasks : list (@pyval Toy.python) :=
  [sample_task [brush_result [1; 2]; wide_brush_result]].

(** What the loop over [sample_tasks] ends with, from the empty table and
    from a table that holds [sample_row] *)
Definition sample_run : @export_state Toy.python :=
  Eval vm_compute in
    match @tasks_loop Toy.python Toy.pillow Toy.world false None 0
            sample_tasks ([], []) with
    | Ok st => st
    | Raise _ => ([], [])
    end.

Definition appended_run : @export_state Toy.python :=
  Eval vm_compute in
    match @tasks_loop Toy.python Toy.pillow Toy.world false None 0
            sample_tasks ([("a.png__task_7", [sample_row])], []) with
    | Ok st => st
    | Raise _ => ([], [])
    end.

(** A 2x3 mask with three true pixels *)
Definition sample_mask : mask := [[false; true; false]; [false; true; true]].

(** ** Image sources: [_best_effort_filename_from_url],
    [_resolve_image_source], [_open_image]

    The two functions the pipeline above takes from its environment, as the
    file defines them. The Django settings, the project storage, the file
    system, the image decoder and the network stay external; [os.path] is
    [posixpath], and the strings are the UTF-8 bytes of the Python strs,
    which changes nothing for the ASCII separators looked for here. *)

Module Resolver.

Class Host `{Pillow} := {
  (** [settings.MEDIA_ROOT] and [settings.UPLOAD_DIR] *)
  MEDIA_ROOT : string;
  UPLOAD_DIR : string;
  (** [os.path.exists] *)
  path_exists : string → bool;
  (** the url entry (a str) of the dict [project.resolve_storage_uri] returns;
      [None] when the call raises, returns no dict or the dict has no url *)
  resolve_storage_uri : string → option string;
  (** [urllib.parse.urljoin] *)
  urljoin : string → string → string;
  (** [Image.open(path)]; [None] when it raises *)
  image_open_path : string → option image;
  (** [Image.open(io.BytesIO(data))]; [None] when it raises *)
  image_open_bytes : string → option image;
  (** [base64.b64decode]; [None] when it raises *)
  b64decode : string → option string;
  (** [project.organization.created_by.auth_token.key]; [None] when the
      access raises or the key is None *)
  auth_token : option string;
  (** the content of [requests.get(url, headers=headers, timeout=30)] after
      [raise_for_status]; [None] when either raises *)
  http_get : string → list (string * string) → option string;
}.

Section Resolver.
Context `{Host}.

(** [s[n:]] *)
Fixpoint drop_chars (n : nat) (s : string) : string :=
  match n, s with
  | S n', String _ s' => drop_chars n' s'
  | _, _ => s
  end.

(** [s.split(c)[0]] *)
Fixpoint before_char (c : ascii) (s : string) : string :=
  match s with
  | EmptyString => EmptyString
  | String a s' => if Ascii.eqb a c then EmptyString
                   else String a (before_char c s')
  end.

(** [c in s] *)
Fixpoint contains_char (c : ascii) (s : string) : bool :=
  match s with
  | EmptyString => false
  | String a s' => Ascii.eqb a c || contains_char c s'
  end.

(** [s.lstrip(c)] *)
Fixpoint lstrip_char (c : ascii) (s : string) : string :=
  match s with
  | EmptyString => EmptyString
  | String a s' => if Ascii.eqb a c then lstrip_char c s' else String a s'
  end.

(** [s.split(c, 1)] when it has two parts *)
Fixpoint split_once (c : ascii) (s : string) : option (string * string) :=
  match s with
  | EmptyString => None
  | String a s' =>
      if Ascii.eqb a c then Some (EmptyString, s')
      else '(before, after) ← split_once c s'; Some (String a before, after)
  end.

(** [sub in s] *)
Fixpoint str_contains (sub s : string) : bool :=
  String.prefix sub s
  || match s with
     | EmptyString => false
     | String _ s' => str_contains sub s'
     end.

(** [os.path.basename(p)]: what follows the last slash *)
Fixpoint basename (p : string) : string :=
  match p with
  | EmptyString => EmptyString
  | String a p' =>
      if contains_char "/" (String a p') then basename p' else String a p'
  end.

(** [os.path.isabs] *)
Definition isabs (p : string) : bool := String.prefix "/" p.

(** One round of the loop of [os.path.join] *)
Definition path_join2 (a b : string) : string :=
  if String.prefix "/" b then b
  else if String.eqb a "" || str_endswith a "/" then a +:+ b
  else a +:+ "/" +:+ b.

(** Lines 137-144; on a str nothing in the body raises *)
Definition _best_effort_filename_from_url (url : string) : string :=
  let path := before_char "?" url in
  let base := basename path in
  if String.eqb base "" then "image" else base.

(** Lines 147-185 *)
Definition _resolve_image_source (image_url : string)
    (download_resources : bool) (hostname : option string) : ImageSource :=
  if String.prefix "upload://" image_url then
    let rel := drop_chars 9 image_url in
    let local_path := path_join2 (path_join2 MEDIA_ROOT UPLOAD_DIR) rel in
    {| url := image_url; path := Some local_path;
       filename := basename local_path |}
  else if isabs image_url && path_exists image_url then
    {| url := "file://" +:+ image_url; path := Some image_url;
       filename := basename image_url |}
  else
    let resolved :=
      match resolve_storage_uri image_url with
      | Some u => if String.eqb u "" then None else Some u
      | None => None
      end in
    match resolved with
    | Some u =>
        {| url := u; path := None;
           filename := _best_effort_filename_from_url u |}
    | None =>
        if String.prefix "data:" image_url then
          {| url := image_url; path := None;
             filename := _best_effort_filename_from_url "inline.png" |}
        else if String.prefix "file://" image_url then
          let local_path := drop_chars 7 image_url in
          {| url := image_url; path := Some local_path;
             filename := basename local_path |}
        else if String.prefix "http://" image_url
                || String.prefix "https://" image_url then
          {| url := image_url; path := None;
             filename := _best_effort_filename_from_url image_url |}
        else
          match hostname with
          | Some host =>
              if negb (String.eqb host "") && String.prefix "/" image_url then
                let abs_url :=
                  urljoin (if str_endswith host "/" then host
                           else host +:+ "/")
                          (lstrip_char "/" image_url) in
                {| url := abs_url; path := None;
                   filename := _best_effort_filename_from_url image_url |}
              else
                {| url := image_url; path := None;
                   filename := _best_effort_filename_from_url image_url |}
          | None =>
              {| url := image_url; path := None;
                 filename := _best_effort_filename_from_url image_url |}
          end
    end.

(** The files [_open_image] opens and the requests it sends *)
Inductive access :=
  | ReadFile (p : string)
  | HttpGet (u : string) (headers : list (string * string)).

(** Lines 188-237: the image, if any, and the files opened and requests
    sent for it ([os.path.exists] is not recorded) *)
Definition _open_image (source : ImageSource) (download_resources : bool)
  : option image * list access :=
  let local :=
    match path source with
    | Some p => if negb (String.eqb p "") && path_exists p then Some p else None
    | None => None
    end in
  match local with
  | Some p => (image_open_path p, [ReadFile p])
  | None =>
      if String.prefix "data:" (url source) then
        (match split_once "," (url source) with
         | Some (header, encoded) =>
             data ← (if str_contains ";base64" header then b64decode encoded
                     else Some encoded);
             image_open_bytes data
         | None => None
         end, [])
      else if String.prefix "file://" (url source) then
        let local_path := drop_chars 7 (url source) in
        (image_open_path local_path, [ReadFile local_path])
      else if negb download_resources then (None, [])
      else
        let headers :=
          match auth_token with
          | Some token =>
              if String.eqb token "" then []
              else [("Authorization", "Token " +:+ token)]
          | None => []
          end in
        (content ← http_get (url source) headers; image_open_bytes content,
         [HttpGet (url source) headers])
  end.

End Resolver.

End Resolver.

(** A host with one uploaded file, no storage and no network *)
Definition toy_host : @Resolver.Host Toy.python Toy.pillow :=
  {| Resolver.MEDIA_ROOT := "/data/media";
     Resolver.UPLOAD_DIR := "upload";
     Resolver.path_exists p := String.eqb p "/data/media/upload/a.png";
     Resolver.resolve_storage_uri _ := None;
     Resolver.urljoin a b := a +:+ b;
     Resolver.image_open_path _ :=
       (Some [[10; 20]; [30; 40]] : option (@image Toy.python Toy.pillow));
     Resolver.image_open_bytes _ := None;
     Resolver.b64decode s := Some s;
     Resolver.auth_token := None;
     Resolver.http_get _ _ := None |}.

(** ** Single-channel modes

    The modes of Pillow whose images hold one band ([Image.getbands] has one
    name): bilevel, 8-bit grey, palette, 32-bit integer, 32-bit float and
    the 16-bit integer variants. *)
Definition pillow_one_band_modes : list string :=
  ["1"; "L"; "P"; "I"; "F"; "I;16"; "I;16L"; "I;16B"; "I;16N"].

(** Those of them the test of line 124 does not name *)
Definition unlisted_one_band_modes : list string :=
  List.filter
    (λ mode, negb (existsb (String.eqb mode) single_channel_modes))
    pillow_one_band_modes.

(** ** Helpers to state further properties of the decoder *)

(** The number of positions the runs of a list ask for: the sum of its
    positive counts *)
Definition positive_total (rle : list Z) : Z :=
  foldr (λ count acc, Z.max 0 count + acc) 0 rle.

(** The background-first run lengths of a flattened mask: [run] positions of
    value [cur] have been seen so far *)
Fixpoint rle_runs (cur : bool) (run : nat) (l : list bool) : list Z :=
  match l with
  | [] => [Z.of_nat run]
  | b :: l' =>
      if Bool.eqb b cur then rle_runs cur (S run) l'
      else Z.of_nat run :: rle_runs b 1 l'
  end.

Definition rle_encode (l : list bool) : list Z := rle_runs false 0 l.

(** ** Helpers to state properties of the table of rows *)

Section Table.
Context `{Python}.

(** The group a row belongs to, read off the row itself *)
Definition row_key (r : row) : string :=
  image_filename r +:+ "__task_" +:+ py_str (task_id r).

(** Appending rows one after the other, each to its own group *)
Definition append_rows (rbi : list (string * list row)) (new : list row)
  : list (string * list row) :=
  foldl (λ acc r, rows_append acc (row_key r) r) rbi new.

(** A row of one of the two shapes; a mask row carries no polygon *)
Definition row_shape_ok (r : row) : Prop :=
  (shape_type r = "mask" ∧ polygon_points_px r = "")
  ∨ shape_type r = "polygon".

(** A group holds at least one row, and only rows that name it *)
Definition group_ok (kv : string * list row) : Prop :=
  kv.2 ≠ [] ∧ Forall (λ r, row_key r = kv.1 ∧ row_shape_ok r) kv.2.

(** The keys of a table are pairwise distinct and its groups well formed *)
Definition table_ok (rbi : list (string * list row)) : Prop :=
  NoDup rbi.*1 ∧ Forall group_ok rbi.

End Table.

(** * Properties *)

Section Properties.
Context `{World}.

(** ** Mask decoder *)

#[local] Arguments np_slice_fill : simpl never.
#[local] Arguments num_min : simpl never.
#[local] Arguments np_reshape : simpl never.
#[local] Arguments np_min : simpl never.
#[local] Arguments np_max : simpl never.
#[local] Arguments np_sum : simpl never.

Lemma spec_runs_length rle : ∀ cur n, length (spec_runs rle cur n) = n.
Proof.
  induction rle as [|L rest IH]; intros cur n; simpl.
  - by rewrite length_replicate.
  - destruct (L <=? 0); [apply IH|].
    rewrite length_app, length_replicate.
    destruct (n - Z.to_nat L `min` n =? 0)%nat eqn:E.
    + apply Nat.eqb_eq in E. simpl. lia.
    + rewrite IH. lia.
Qed.

Lemma b2z_negb (b : bool) : 1 - Z.b2z b = Z.b2z (negb b).
Proof. by destruct b. Qed.

(** Filling [flat[i:e]] when everything from [i] on is still zero *)
Lemma np_slice_fill_fresh (pre : list Z) (k : nat) (i e : Z) :
  length pre = Z.to_nat i → 0 ≤ i ≤ e → e ≤ i + Z.of_nat k →
  np_slice_fill (pre ++ replicate k 0) (NInt i) (NInt e) 1
  = Ok (pre ++ replicate (Z.to_nat (e - i)) 1
            ++ replicate (k - Z.to_nat (e - i)) 0).
Proof.
  intros Hpre Hie Hek. unfold np_slice_fill, slice_index.
  rewrite length_app, length_replicate.
  destruct (i <? 0) eqn:Ei; [apply Z.ltb_lt in Ei; lia|].
  destruct (e <? 0) eqn:Ee; [apply Z.ltb_lt in Ee; lia|].
  rewrite !Z.min_l by lia.
  replace (Z.to_nat e - Z.to_nat i)%nat with (Z.to_nat (e - i)) by lia.
  f_equal. rewrite <- Hpre.
  rewrite take_app_length. f_equal. f_equal.
  rewrite drop_app_add', drop_replicate by done. done.
Qed.

Lemma decode_loop_refines (total : Z) (rle : list Z) :
  ∀ (pre : list Z) (cur : bool) (i : Z),
    0 ≤ i < total → length pre = Z.to_nat i →
    ∃ st',
      decode_loop total (PInt <$> rle)
        {| flat := pre ++ replicate (Z.to_nat (total - i)) 0;
           value := Z.b2z cur; idx := NInt i |} = Ok st'
      ∧ flat st' = pre ++ (Z.b2z <$> spec_runs rle cur (Z.to_nat (total - i))).
Proof.
  induction rle as [|L rest IH]; intros pre cur i Hi Hpre; simpl.
  - eexists; split; [done|]. simpl. by rewrite fmap_replicate.
  - destruct (L <=? 0) eqn:EL; simpl.
    + rewrite b2z_negb. by apply IH.
    + apply Z.leb_gt in EL.
      set (e := if total <? i + L then total else i + L).
      assert (He : i < e ≤ total ∧ Z.to_nat (e - i)
                   = (Z.to_nat L `min` Z.to_nat (total - i))%nat).
      { unfold e. destruct (total <? i + L) eqn:E;
          [apply Z.ltb_lt in E | apply Z.ltb_ge in E]; lia. }
      destruct He as [He Hn]. rewrite <- Hn.
      assert (Hfill :
        (if Z.b2z cur =? 1
         then np_slice_fill (pre ++ replicate (Z.to_nat (total - i)) 0)
                (NInt i) (num_min (NInt (i + L)) total) 1
         else Ok (pre ++ replicate (Z.to_nat (total - i)) 0))
        = Ok ((pre ++ replicate (Z.to_nat (e - i)) (Z.b2z cur))
                ++ replicate (Z.to_nat (total - e)) 0)).
      { unfold num_min. fold e.
        replace (if total <? i + L then NInt total else NInt (i + L))
          with (NInt e) by (unfold e; by destruct (total <? i + L)).
        destruct cur.
        - change (Z.b2z true =? 1) with true. cbv iota.
          rewrite np_slice_fill_fresh by lia. rewrite <- app_assoc.
          replace (Z.to_nat (total - i) - Z.to_nat (e - i))%nat
            with (Z.to_nat (total - e)) by lia.
          done.
        - change (Z.b2z false =? 1) with false. cbv iota.
          f_equal. rewrite <- app_assoc. f_equal.
          change (Z.b2z false) with 0.
          rewrite <- replicate_add. f_equal. lia. }
      rewrite Hfill. simpl.
      replace (num_min (NInt (i + L)) total) with (NInt e)
        by (unfold num_min, e; by destruct (total <? i + L)).
      simpl. rewrite b2z_negb.
      replace (Z.to_nat (total - i) - Z.to_nat (e - i))%nat
        with (Z.to_nat (total - e)) by lia.
      destruct (total <=? e) eqn:Ege.
      * apply Z.leb_le in Ege. eexists; split; [done|]. simpl.
        replace (Z.to_nat (total - e)) with 0%nat by lia. simpl.
        by rewrite !app_nil_r, fmap_replicate.
      * apply Z.leb_gt in Ege.
        destruct (IH (pre ++ replicate (Z.to_nat (e - i)) (Z.b2z cur))
                    (negb cur) e) as (st' & Hrun & Hflat).
        { lia. }
        { rewrite length_app, length_replicate. lia. }
        exists st'. split; [done|]. rewrite Hflat.
        replace (Z.to_nat (total - e) =? 0)%nat with false
          by (symmetry; apply Nat.eqb_neq; lia).
        rewrite fmap_app, fmap_replicate. by rewrite <- app_assoc.
Qed.

Lemma chunks_length {A} (rows cols : nat) : ∀ l : list A,
  length (chunks rows cols l) = rows.
Proof. induction rows as [|rows IH]; intros l; simpl; [done|by rewrite IH]. Qed.

Lemma chunks_row_lengths {A} (rows cols : nat) : ∀ l : list A,
  length l = (rows * cols)%nat →
  Forall (λ row, length row = cols) (chunks rows cols l).
Proof.
  induction rows as [|rows IH]; intros l Hl; simpl; constructor.
  - rewrite length_take. lia.
  - apply IH. rewrite length_drop. lia.
Qed.

Lemma chunks_concat {A} (rows cols : nat) : ∀ l : list A,
  length l = (rows * cols)%nat → concat (chunks rows cols l) = l.
Proof.
  induction rows as [|rows IH]; intros l Hl; simpl.
  - symmetry. apply length_zero_iff_nil. lia.
  - rewrite IH by (rewrite length_drop; lia). apply take_drop.
Qed.

Lemma concat_map_map {A B} (f : A → B) (g : list (list A)) :
  concat (map (map f) g) = f <$> concat g.
Proof.
  induction g as [|row g IH]; simpl; [done|]. by rewrite fmap_app, IH.
Qed.

Lemma positive_b2z (bs : list bool) : (λ x, 0 <? x) <$> (Z.b2z <$> bs) = bs.
Proof.
  induction bs as [|b bs IH]; [done|].
  rewrite !fmap_cons, IH. by destruct b.
Qed.

(** C2. For every run-length list of integers and every width and height of
    at least 1 the decoder returns a mask of [height] rows and [width]
    columns whose row-major flattening is what the specification's walk
    over the runs yields ([spec_runs]): a zero-or-negative run flips the
    current value and consumes nothing, a positive run [L] fills
    [min L remaining] positions with the current value and flips it,
    consumption stops when [width * height] positions are filled, and the
    positions no run covers are false. *)
Theorem decode_brush_rle_refines_spec (rle : list Z) (width height : Z) :
  1 ≤ width → 1 ≤ height →
  ∃ m : mask,
    _decode_brush_rle_to_mask (PInt <$> rle) width height = Ok m
    ∧ length m = Z.to_nat height
    ∧ Forall (λ row, length row = Z.to_nat width) m
    ∧ concat m = spec_runs rle false (Z.to_nat (width * height)).
Proof.
  intros Hw Hh. unfold _decode_brush_rle_to_mask, np_zeros.
  destruct (width * height <? 0) eqn:E; [apply Z.ltb_lt in E; nia|]. simpl.
  destruct (decode_loop_refines (width * height) rle [] false 0)
    as (st' & Hrun & Hflat); [nia|done|].
  simpl in Hrun. rewrite Z.sub_0_r in Hrun, Hflat. rewrite Hrun. simpl.
  simpl in Hflat. rewrite Hflat. unfold np_reshape.
  rewrite length_fmap, spec_runs_length.
  replace ((0 <=? height) && (0 <=? width)) with true
    by (symmetry; apply andb_true_iff; split; apply Z.leb_le; lia).
  replace (height * width =? Z.of_nat (Z.to_nat (width * height))) with true
    by (symmetry; apply Z.eqb_eq; nia).
  simpl. eexists; split; [done|].
  assert (Hlen : length (Z.b2z <$> spec_runs rle false
                           (Z.to_nat (width * height)))
                 = (Z.to_nat height * Z.to_nat width)%nat)
    by (rewrite length_fmap, spec_runs_length; nia).
  split; [by rewrite length_map, chunks_length|]. split.
  - apply Forall_map.
    eapply Forall_impl; [by apply chunks_row_lengths|].
    intros row Hrow. simpl. by rewrite length_map.
  - by rewrite concat_map_map, chunks_concat, positive_b2z.
Qed.

(** C1, as the code has it. The runs [0,1,1,2,3] over a grid of width 7 and
    height 1 decode to [T,F,T,T,F,F,F]: the leading zero-length run only
    flips the current value to foreground. *)
Theorem decode_reference_scenario :
  _decode_brush_rle_to_mask (PInt <$> [0; 1; 1; 2; 3]) 7 1
  = Ok [[true; false; true; true; false; false; false]].
Proof. reflexivity. Qed.

(** ** Region geometry analyser *)

Lemma pixel_true (m : mask) (r c : Z) :
  pixel m r c = true
  ↔ 0 ≤ r ∧ 0 ≤ c ∧ (row ← m !! Z.to_nat r; row !! Z.to_nat c) = Some true.
Proof.
  unfold pixel. destruct (r <? 0) eqn:Er; simpl.
  { apply Z.ltb_lt in Er. split; [done|lia]. }
  destruct (c <? 0) eqn:Ec; simpl.
  { apply Z.ltb_lt in Ec. split; [done|lia]. }
  apply Z.ltb_ge in Er, Ec.
  destruct (m !! Z.to_nat r ≫= _) as [[]|]; simpl; split; try done;
    intros (_ & _ & ?); done.
Qed.

Lemma true_cols_spec (row : list bool) : ∀ c0 x,
  x ∈ true_cols c0 row ↔ c0 ≤ x ∧ row !! Z.to_nat (x - c0) = Some true.
Proof.
  induction row as [|b row IH]; intros c0 x; simpl.
  - split; [by intros ?%elem_of_nil|by intros [_ ?]].
  - rewrite elem_of_app, IH. split.
    + intros [Hx|[Hx Hl]].
      * destruct b; [|by apply elem_of_nil in Hx].
        apply list_elem_of_singleton in Hx as ->.
        rewrite Z.sub_diag. split; [lia|done].
      * split; [lia|].
        replace (Z.to_nat (x - c0)) with (S (Z.to_nat (x - (c0 + 1)))) by lia.
        done.
    + intros [Hx Hl]. destruct (decide (x = c0)) as [->|Hne].
      * left. rewrite Z.sub_diag in Hl. simpl in Hl.
        injection Hl as ->. by apply list_elem_of_singleton.
      * right. split; [lia|].
        replace (Z.to_nat (x - c0)) with (S (Z.to_nat (x - (c0 + 1)))) in Hl
          by lia.
        done.
Qed.

Lemma true_cols_NoDup (row : list bool) : ∀ c0, NoDup (true_cols c0 row).
Proof.
  induction row as [|b row IH]; intros c0; simpl; [constructor|].
  destruct b; simpl; [|apply IH].
  constructor; [|apply IH]. rewrite true_cols_spec. lia.
Qed.

Lemma true_cols_length (row : list bool) : ∀ c0,
  Z.of_nat (length (true_cols c0 row))
  = foldr (λ (b : bool) a, Z.b2z b + a) 0 row.
Proof.
  induction row as [|b row IH]; intros c0; simpl; [done|].
  rewrite length_app, Nat2Z.inj_add, IH. by destruct b.
Qed.

Lemma where_rows_spec (m : mask) : ∀ r0 y x,
  (y, x) ∈ where_rows r0 m
  ↔ r0 ≤ y ∧ 0 ≤ x
    ∧ (row ← m !! Z.to_nat (y - r0); row !! Z.to_nat x) = Some true.
Proof.
  induction m as [|row m IH]; intros r0 y x; simpl.
  - split; [by intros ?%elem_of_nil|by intros (_ & _ & ?)].
  - rewrite elem_of_app, IH, list_elem_of_fmap. split.
    + intros [(c & [= -> ->] & Hc)|(Hy & Hx & Hl)].
      * apply true_cols_spec in Hc as [Hc Hl].
        rewrite Z.sub_diag, Z.sub_0_r in *. simpl. split; [lia|done].
      * split; [lia|]. split; [done|].
        replace (Z.to_nat (y - r0)) with (S (Z.to_nat (y - (r0 + 1)))) by lia.
        done.
    + intros (Hy & Hx & Hl). destruct (decide (y = r0)) as [->|Hne].
      * left. exists x. split; [done|]. apply true_cols_spec.
        rewrite Z.sub_diag in Hl. simpl in Hl. rewrite Z.sub_0_r.
        split; [lia|done].
      * right. split; [lia|]. split; [done|].
        replace (Z.to_nat (y - r0)) with (S (Z.to_nat (y - (r0 + 1)))) in Hl
          by lia.
        done.
Qed.

Lemma where_rows_NoDup (m : mask) : ∀ r0, NoDup (where_rows r0 m).
Proof.
  induction m as [|row m IH]; intros r0; simpl; [constructor|].
  apply NoDup_app. split; [|split; [|apply IH]].
  - apply NoDup_fmap_2; [by intros ?? [=]|apply true_cols_NoDup].
  - intros [y x] (c & [= -> ->] & _)%list_elem_of_fmap Hin.
    apply where_rows_spec in Hin. lia.
Qed.

Lemma where_rows_length (m : mask) : ∀ r0,
  Z.of_nat (length (where_rows r0 m)) = np_sum m.
Proof.
  induction m as [|row m IH]; intros r0; simpl; [done|].
  rewrite length_app, length_map, Nat2Z.inj_add, IH, true_cols_length. done.
Qed.

Lemma where_rows_pixel (m : mask) (y x : Z) :
  (y, x) ∈ where_rows 0 m ↔ pixel m y x = true.
Proof. rewrite where_rows_spec, pixel_true, Z.sub_0_r. done. Qed.

Lemma foldl_min_spec (l : list Z) : ∀ a,
  (foldl Z.min a l = a ∨ foldl Z.min a l ∈ l)
  ∧ foldl Z.min a l ≤ a ∧ ∀ y, y ∈ l → foldl Z.min a l ≤ y.
Proof.
  induction l as [|x l IH]; intros a; simpl.
  - split; [by left|]. split; [lia|]. by intros y ?%elem_of_nil.
  - destruct (IH (Z.min a x)) as (Hin & Hle & Hall). split; [|split].
    + destruct Hin as [Heq|Hin]; [|right; by apply elem_of_cons; right].
      rewrite Heq. destruct (Z.min_spec a x) as [[_ ->]|[_ ->]];
        [by left|right; by apply elem_of_cons; left].
    + lia.
    + intros y [->|Hy]%elem_of_cons; [lia|by apply Hall].
Qed.

Lemma foldl_max_spec (l : list Z) : ∀ a,
  (foldl Z.max a l = a ∨ foldl Z.max a l ∈ l)
  ∧ a ≤ foldl Z.max a l ∧ ∀ y, y ∈ l → y ≤ foldl Z.max a l.
Proof.
  induction l as [|x l IH]; intros a; simpl.
  - split; [by left|]. split; [lia|]. by intros y ?%elem_of_nil.
  - destruct (IH (Z.max a x)) as (Hin & Hle & Hall). split; [|split].
    + destruct Hin as [Heq|Hin]; [|right; by apply elem_of_cons; right].
      rewrite Heq. destruct (Z.max_spec a x) as [[_ ->]|[_ ->]];
        [right; by apply elem_of_cons; left|by left].
    + lia.
    + intros y [->|Hy]%elem_of_cons; [lia|by apply Hall].
Qed.

Lemma np_min_spec (l : list Z) :
  l ≠ [] → np_min l ∈ l ∧ ∀ y, y ∈ l → np_min l ≤ y.
Proof.
  destruct l as [|x l]; [done|]. intros _. unfold np_min.
  destruct (foldl_min_spec l x) as (Hin & Hle & Hall). split.
  - apply elem_of_cons. destruct Hin; [by left|by right].
  - intros y [->|Hy]%elem_of_cons; [done|by apply Hall].
Qed.

Lemma np_max_spec (l : list Z) :
  l ≠ [] → np_max l ∈ l ∧ ∀ y, y ∈ l → y ≤ np_max l.
Proof.
  destruct l as [|x l]; [done|]. intros _. unfold np_max.
  destruct (foldl_max_spec l x) as (Hin & Hle & Hall). split.
  - apply elem_of_cons. destruct Hin; [by left|by right].
  - intros y [->|Hy]%elem_of_cons; [done|by apply Hall].
Qed.

Lemma bbox_no_true_pixel (m : mask) :
  (∀ r c, pixel m r c = false) → _compute_bbox_and_area m = (0, 0, 0, 0, 0).
Proof.
  intros Hnone. unfold _compute_bbox_and_area, np_where.
  destruct (where_rows 0 m) as [|[y x] ps] eqn:E; [done|].
  assert (pixel m y x = true) as Htrue
    by (apply where_rows_pixel; rewrite E; apply elem_of_cons; by left).
  by rewrite Hnone in Htrue.
Qed.


(** C3. On a mask without true pixels the analyser returns (0,0,0,0,0).
    Otherwise it returns the minimum column and the minimum row that hold a
    true pixel, the spans [max_col - min_col] and [max_row - min_row]
    between the extreme true pixels (not plus one), and the exact number of
    true pixels. *)
Theorem compute_bbox_and_area_spec (m : mask) :
  ((∀ r c, pixel m r c = false) → _compute_bbox_and_area m = (0, 0, 0, 0, 0))
  ∧ ((∃ r c, pixel m r c = true) →
     ∃ (min_col max_col min_row max_row : Z) (trues : list (Z * Z)),
       (∃ r, pixel m r min_col = true) ∧ (∃ r, pixel m r max_col = true)
       ∧ (∃ c, pixel m min_row c = true) ∧ (∃ c, pixel m max_row c = true)
       ∧ (∀ r c, pixel m r c = true →
                 min_col ≤ c ≤ max_col ∧ min_row ≤ r ≤ max_row)
       ∧ NoDup trues ∧ (∀ r c, (r, c) ∈ trues ↔ pixel m r c = true)
       ∧ _compute_bbox_and_area m
         = (min_col, min_row, max_col - min_col, max_row - min_row,
            Z.of_nat (length trues))).
Proof.
  unfold _compute_bbox_and_area, np_where.
  pose proof (where_rows_pixel m) as Hpix.
  pose proof (where_rows_NoDup m 0) as Hnd.
  pose proof (where_rows_length m 0) as Hlen.
  destruct (where_rows 0 m) as [|p ps] eqn:Eps.
  - split; [done|]. intros (r & c & Hrc).
    apply Hpix in Hrc. by apply elem_of_nil in Hrc.
  - split.
    { intros Hnone. rewrite <- Eps. by apply bbox_no_true_pixel in Hnone. }
    intros _.
    set (xs := map snd (p :: ps)). set (ys := map fst (p :: ps)).
    assert (Hxs : xs ≠ []) by (by destruct p).
    assert (Hys : ys ≠ []) by (by destruct p).
    destruct (np_min_spec xs Hxs) as [Hminx_in Hminx].
    destruct (np_max_spec xs Hxs) as [Hmaxx_in Hmaxx].
    destruct (np_min_spec ys Hys) as [Hminy_in Hminy].
    destruct (np_max_spec ys Hys) as [Hmaxy_in Hmaxy].
    assert (Hcol : ∀ x, x ∈ xs ↔ ∃ r, pixel m r x = true).
    { intros x. unfold xs. rewrite list_elem_of_fmap. split.
      - intros ([y x'] & -> & Hin). exists y. by apply Hpix.
      - intros (r & Hr). exists (r, x). split; [done|]. by apply Hpix. }
    assert (Hrow : ∀ y, y ∈ ys ↔ ∃ c, pixel m y c = true).
    { intros y. unfold ys. rewrite list_elem_of_fmap. split.
      - intros ([y' x] & -> & Hin). exists x. by apply Hpix.
      - intros (c & Hc). exists (y, c). split; [done|]. by apply Hpix. }
    exists (np_min xs), (np_max xs), (np_min ys), (np_max ys), (p :: ps).
    split; [by apply Hcol|]. split; [by apply Hcol|].
    split; [by apply Hrow|]. split; [by apply Hrow|].
    split.
    { intros r c Hrc.
      assert (c ∈ xs) by (apply Hcol; eauto).
      assert (r ∈ ys) by (apply Hrow; eauto).
      split; split; auto. }
    split; [done|]. split; [done|].
    replace ((length xs =? 0)%nat || (length ys =? 0)%nat) with false
      by (unfold xs, ys; by destruct p).
    rewrite Hlen.
    rewrite !Z.max_r; [done| |].
    + specialize (Hminy _ Hmaxy_in). lia.
    + specialize (Hminx _ Hmaxx_in). lia.
Qed.

(** ** Polygon rasteriser *)

(** C8. For every width and height of at least 1, rasterising the empty
    vertex list raises nothing and yields a mask of [height] rows and
    [width] columns that is false everywhere. *)
Theorem rasterize_polygon_empty (width height : Z) :
  1 ≤ width → 1 ≤ height →
  ∃ m : mask,
    _rasterize_polygon [] width height = Ok m
    ∧ length m = Z.to_nat height
    ∧ Forall (λ row, length row = Z.to_nat width ∧ Forall (λ b, b = false) row) m.
Proof.
  intros Hw Hh. unfold _rasterize_polygon, np_zeros2.
  destruct (height <? 0) eqn:Eh; [apply Z.ltb_lt in Eh; lia|].
  destruct (width <? 0) eqn:Ew; [apply Z.ltb_lt in Ew; lia|]. simpl.
  eexists. split; [done|]. split; [by rewrite length_replicate|].
  apply Forall_replicate. split; [by rewrite length_replicate|].
  by apply Forall_replicate.
Qed.

(** ** Intensity aggregator *)

Lemma np_sum_no_true (m : mask) :
  (∀ r c, pixel m r c = false) → np_sum m = 0.
Proof.
  intros Hnone. rewrite <- (where_rows_length m 0).
  destruct (where_rows 0 m) as [|[y x] ps] eqn:E; [done|].
  assert (pixel m y x = true) as Htrue
    by (apply where_rows_pixel; rewrite E; apply elem_of_cons; by left).
  by rewrite Hnone in Htrue.
Qed.

Lemma np_sum_some_true (m : mask) :
  (∃ r c, pixel m r c = true) → np_sum m ≠ 0.
Proof.
  intros (r & c & Hrc). rewrite <- (where_rows_length m 0).
  apply where_rows_pixel in Hrc.
  destruct (where_rows 0 m); [by apply elem_of_nil in Hrc|]. simpl. lia.
Qed.

Lemma row_sum_nonneg (row : list bool) :
  0 ≤ foldr (λ (b : bool) a, Z.b2z b + a) 0 row.
Proof. induction row as [|[] row IH]; simpl; lia. Qed.

Lemma row_sum_any (row : list bool) :
  foldr (λ (b : bool) a, Z.b2z b + a) 0 row ≠ 0 → existsb id row = true.
Proof.
  induction row as [|[] row IH]; simpl; [done|done|]. intros Hs. apply IH. lia.
Qed.

Lemma np_sum_any (m : mask) : np_sum m ≠ 0 → np_any m = true.
Proof.
  unfold np_sum, np_any. induction m as [|row m IH]; simpl; [done|].
  intros Hs. apply orb_true_iff.
  destruct (decide (foldr (λ (b : bool) a, Z.b2z b + a) 0 row = 0)) as [E|E].
  - right. apply IH. lia.
  - left. by apply row_sum_any.
Qed.

Lemma compute_intensities_no_true (img : image) (m : mask) :
  (∀ r c, pixel m r c = false) →
  _compute_intensities img m = Ok (None, None, None, None).
Proof.
  intros Hnone. unfold _compute_intensities. by rewrite np_sum_no_true.
Qed.

(** X29. When the mask has no true pixel the four means are absent ([None],
    not zero), whatever the image. When the image's mode is one of the four
    the code names (L, I, I;16, F) and the mask has a true pixel, the result
    is the mean of the luminance band under the mask together with absent
    R, G and B means. *)
Theorem compute_intensities_absent (img : image) (m : mask) :
  ((∀ r c, pixel m r c = false) →
   _compute_intensities img m = Ok (None, None, None, None))
  ∧ (image_mode img ∈ single_channel_modes →
     (∃ r c, pixel m r c = true) →
     ∀ gray g, gray_band img = Ok gray → masked_mean gray m = Ok g →
     _compute_intensities img m = Ok (Some g, None, None, None)).
Proof.
  split; [apply compute_intensities_no_true|].
  unfold _compute_intensities.
  - intros Hmode Htrue gray g Hgray Hmean.
    apply np_sum_some_true in Htrue.
    destruct (np_sum m =? 0) eqn:E; [by apply Z.eqb_eq in E|].
    assert (existsb (String.eqb (image_mode img)) single_channel_modes = true)
      as Hex.
    { apply existsb_exists. exists (image_mode img).
      split; [by apply list_elem_of_In|apply String.eqb_refl]. }
    rewrite Hgray. simpl. rewrite np_sum_any by done.
    rewrite Hmean. simpl. simpl in Hex. by rewrite Hex.
Qed.

(** C7, where the code departs from it. The test of line 124 names four
    modes only. An image of another single-channel mode (bilevel 1, palette
    P, the 16-bit I;16L, I;16B and I;16N) with a mask that has a true pixel
    is converted to RGB: whenever the aggregator returns, the R, G and B
    means are all present, never absent, and it does return them as soon as
    the conversions and the means under the mask succeed. *)
Theorem unlisted_one_band_mode_gets_colour (img : image) (m : mask) :
  image_mode img ∈ unlisted_one_band_modes →
  (∃ r c, pixel m r c = true) →
  (∀ res, _compute_intensities img m = Ok res →
          ∃ mean_gray_ mean_r_ mean_g_ mean_b_,
            res = (Some mean_gray_, Some mean_r_, Some mean_g_, Some mean_b_))
  ∧ (∀ gray_np r_np g_np b_np mean_gray_ mean_r_ mean_g_ mean_b_,
       gray_band img = Ok gray_np → masked_mean gray_np m = Ok mean_gray_ →
       rgb_bands img = Ok (r_np, g_np, b_np) →
       masked_mean r_np m = Ok mean_r_ → masked_mean g_np m = Ok mean_g_ →
       masked_mean b_np m = Ok mean_b_ →
       _compute_intensities img m
       = Ok (Some mean_gray_, Some mean_r_, Some mean_g_, Some mean_b_)).
Proof.
  intros Hmode Htrue.
  assert (Hlisted :
    existsb (String.eqb (image_mode img)) single_channel_modes = false).
  { apply list_elem_of_In, filter_In in Hmode as [_ Hneg].
    by apply negb_true_iff in Hneg. }
  apply np_sum_some_true in Htrue.
  unfold _compute_intensities.
  destruct (np_sum m =? 0) eqn:E; [by apply Z.eqb_eq in E|].
  rewrite np_sum_any by done. rewrite Hlisted. split.
  - intros res Hrun.
    destruct (gray_band img) as [gray_np|]; cbn [mbind result_bind] in Hrun;
      [|done].
    destruct (masked_mean gray_np m) as [mean_gray_|];
      cbn [mbind result_bind] in Hrun; [|done].
    destruct (rgb_bands img) as [[[r_np g_np] b_np]|];
      cbn [mbind result_bind] in Hrun; [|done].
    destruct (masked_mean r_np m) as [mean_r_|];
      cbn [mbind result_bind] in Hrun; [|done].
    destruct (masked_mean g_np m) as [mean_g_|];
      cbn [mbind result_bind] in Hrun; [|done].
    destruct (masked_mean b_np m) as [mean_b_|];
      cbn [mbind result_bind] in Hrun; [|done].
    injection Hrun as <-. by eexists _, _, _, _.
  - intros gray_np r_np g_np b_np mean_gray_ mean_r_ mean_g_ mean_b_
      Hgray Hmg Hrgb Hmr Hmgr Hmb.
    rewrite Hgray. cbn [mbind result_bind]. rewrite Hmg.
    cbn [mbind result_bind]. rewrite Hrgb. cbn [mbind result_bind].
    rewrite Hmr. cbn [mbind result_bind]. rewrite Hmgr.
    cbn [mbind result_bind]. by rewrite Hmb.
Qed.

(** ** Export pipeline *)

#[local] Arguments region_shape : simpl never.
#[local] Arguments resolve_region : simpl never.
#[local] Arguments region_means : simpl never.
#[local] Arguments make_row : simpl never.
#[local] Arguments group_key : simpl never.
#[local] Arguments _compute_bbox_and_area : simpl never.

(** Case analysis on the outcome of a call that may raise *)
Ltac case_result m :=
  let E := fresh "E" in
  destruct m eqn:E; simpl in *; try discriminate.

Lemma make_row_fields task_id_ ann_id ctx label_ shape_type_ box ms poly :
  let r := make_row task_id_ ann_id ctx label_ shape_type_ box ms poly in
  region_id r = ctx_region_id ctx
  ∧ shape_type r = shape_type_
  ∧ (bbox_x_px r, bbox_y_px r, x_length_px r, y_length_px r, area_px r) = box
  ∧ (mean_gray r, mean_r r, mean_g r, mean_b r)
    = (cell ms.1.1.1, cell ms.1.1.2, cell ms.1.2, cell ms.2).
Proof.
  destruct box as [[[[bx by_] w] h] area], ms as [[[mg mr] mgr] mb].
  by cbv [make_row].
Qed.

Lemma rows_append_all_rows rbi key r :
  all_rows (rows_append rbi key r) ≡ₚ all_rows rbi ++ [r].
Proof.
  unfold all_rows. induction rbi as [|[k rows] rbi IH]; simpl; [done|].
  destruct (String.eqb k key); simpl.
  - rewrite <- !app_assoc. apply Permutation_app_head, Permutation_app_comm.
  - rewrite IH. by rewrite app_assoc.
Qed.

(** What one pass through the loop body does to the table and to the set *)
Lemma emit_region_step download_resources task_id_ ann_id lbl ta st tr ctx st' :
  emit_region download_resources task_id_ ann_id lbl ta st tr ctx = Ok st' →
  (rows_by_image st' = rows_by_image st
   ∧ processed_region_ids st' = processed_region_ids st)
  ∨ (∃ r,
       rows_by_image st'
       = rows_append (rows_by_image st) (group_key (ctx_source ctx) task_id_) r
       ∧ row_region_key r = py_str (ctx_region_id ctx)
       ∧ (row_region_key r ∉ processed_region_ids st)
       ∧ processed_region_ids st'
         = processed_region_ids st ∪ {[row_region_key r]}).
Proof.
  unfold emit_region. intros Hrun.
  destruct (decide (_ ∈ _)) as [Hin|Hnin].
  { injection Hrun as <-. by left. }
  case_result (region_shape (ctx_is_mask ctx) (ctx_is_polygon ctx)
                 (ctx_value ctx) (ctx_width ctx) (ctx_height ctx)).
  destruct a as [[[[m shp] own] poly]|].
  - destruct (region_means _ _ _ _ _) as [ms evs].
    injection Hrun as <-. right. simpl. eexists. split; [done|].
    unfold row_region_key.
    destruct (make_row_fields task_id_ ann_id ctx
                (resolve_label own lbl (py_str (ctx_region_id ctx))) shp
                (_compute_bbox_and_area m) ms poly) as (-> & _).
    done.
  - injection Hrun as <-. by left.
Qed.

Lemma process_result_step download_resources hostname task_id_ ann_id data
    lbl ta oid st res st' :
  process_result download_resources hostname task_id_ ann_id data lbl ta oid
    st res = Ok st' →
  (rows_by_image st' = rows_by_image st
   ∧ processed_region_ids st' = processed_region_ids st)
  ∨ (∃ key r,
       rows_by_image st' = rows_append (rows_by_image st) key r
       ∧ (row_region_key r ∉ processed_region_ids st)
       ∧ processed_region_ids st'
         = processed_region_ids st ∪ {[row_region_key r]}).
Proof.
  unfold process_result. intros Hrun.
  case_result (resolve_region download_resources hostname data oid
                 (trace st) res).
  destruct a as [tr [ctx|]].
  - apply emit_region_step in Hrun as [?|(r & ? & ? & ? & ?)]; [by left|].
    right. eauto.
  - injection Hrun as <-. by left.
Qed.

Lemma results_loop_rows download_resources hostname task_id_ ann_id data
    lbl ta ti ai (results : list pyval) :
  ∀ ri st st',
    results_loop download_resources hostname task_id_ ann_id data lbl ta
      ti ai ri results st = Ok st' →
    ∃ new,
      all_rows (rows_by_image st') ≡ₚ all_rows (rows_by_image st) ++ new
      ∧ NoDup (row_region_key <$> new)
      ∧ (∀ r, r ∈ new → row_region_key r ∉ processed_region_ids st)
      ∧ (∀ r, r ∈ new → row_region_key r ∈ processed_region_ids st')
      ∧ processed_region_ids st ⊆ processed_region_ids st'.
Proof.
  induction results as [|res rest IH]; intros ri st st' Hrun; simpl in Hrun.
  - injection Hrun as <-. exists []. rewrite app_nil_r.
    split; [done|]. split; [constructor|].
    split; [by intros r ?%elem_of_nil|].
    split; [by intros r ?%elem_of_nil|done].
  - case_result (process_result download_resources hostname task_id_ ann_id
                   data lbl ta (object_id ti ai ri) st res).
    apply IH in Hrun as (new & Hperm & Hnd & Hfresh & Hdone & Hsub).
    apply process_result_step in E as [[Hrows Hproc]|(key & r & Hrows & Hr & Hproc)].
    + exists new. rewrite <- Hrows, <- Hproc. done.
    + exists (r :: new). rewrite Hrows, rows_append_all_rows in Hperm.
      rewrite Hproc in Hfresh, Hsub.
      assert (Hmine : row_region_key r
                      ∈ processed_region_ids st ∪ {[row_region_key r]})
        by (apply elem_of_union; right; by apply elem_of_singleton).
      split; [by rewrite Hperm, <- app_assoc|].
      split.
      { rewrite fmap_cons. constructor; [|done].
        intros (r' & Heq & Hin)%list_elem_of_fmap.
        apply (Hfresh r' Hin). by rewrite <- Heq. }
      split.
      { intros r' [->|Hin]%elem_of_cons; [done|].
        intros Hold. apply (Hfresh r' Hin), elem_of_union. by left. }
      split.
      { intros r' [->|Hin]%elem_of_cons; [by apply Hsub|by apply Hdone]. }
      intros x Hx. apply Hsub, elem_of_union. by left.
Qed.



(** C5. Within one annotation a region identifier is processed at most
    once. The rows an annotation adds to the table carry pairwise different
    region identifiers (as the strings the loop compares), and a result whose
    region identifier is already in [processed_region_ids] leaves the table
    and the set as they are, without raising. *)
Theorem region_processed_at_most_once :
  (∀ download_resources hostname task_id_ data ti ai st ann st',
     process_annotation download_resources hostname task_id_ data ti ai st ann
     = Ok st' →
     ∃ new,
       all_rows st'.1 ≡ₚ all_rows st.1 ++ new
       ∧ NoDup (row_region_key <$> new))
  ∧ (∀ download_resources hostname task_id_ ann_id data lbl ta oid st res
       tr ctx,
       resolve_region download_resources hostname data oid (trace st) res
       = Ok (tr, Some ctx) →
       py_str (ctx_region_id ctx) ∈ processed_region_ids st →
       process_result download_resources hostname task_id_ ann_id data lbl ta
         oid st res
       = Ok {| rows_by_image := rows_by_image st;
               processed_region_ids := processed_region_ids st;
               trace := tr |}).
Proof.
  split.
  - intros dl hostname task_id_ data ti ai st ann st' Hrun.
    unfold process_annotation in Hrun.
    case_result (py_get ann "id").
    case_result (py_get ann "result").
    case_result (py_iter (py_or a0 (PList []))).
    case_result (prescan a1 (∅, ∅)).
    destruct a2 as [lbl ta].
    case_result (results_loop dl hostname task_id_ a data lbl ta ti ai 0 a1
                   {| rows_by_image := st.1; processed_region_ids := ∅;
                      trace := st.2 |}).
    injection Hrun as <-.
    apply results_loop_rows in E3 as (new & Hperm & Hnd & _).
    exists new. done.
  - intros dl hostname task_id_ ann_id data lbl ta oid st res tr ctx Hctx Hin.
    unfold process_result. rewrite Hctx. simpl. unfold emit_region.
    by rewrite decide_True.
Qed.

Lemma first_label_dict (d : list (string * pyval)) (key : string) :
  ∃ l, _first_label_from_result_value (PDict d) key = Ok l.
Proof.
  unfold _first_label_from_result_value. simpl.
  destruct (py_or (dict_get d key) (PList [])); eauto.
Qed.

(** The label part of the first loop never fails on a dict *)
Lemma prescan_label_dict (d : list (string * pyval)) :
  ∃ lb,
    (bl ← py_get (PDict d) "brushlabels";
     if py_truthy bl
     then l ← _first_label_from_result_value (PDict d) "brushlabels"; Ok (Some l)
     else
       pl ← py_get (PDict d) "polygonlabels";
       if py_truthy pl
       then l ← _first_label_from_result_value (PDict d) "polygonlabels"; Ok (Some l)
       else Ok None) = Ok lb.
Proof.
  simpl. destruct (py_truthy (dict_get d "brushlabels")).
  - destruct (first_label_dict d "brushlabels") as [l ->]. simpl. eauto.
  - destruct (py_truthy (dict_get d "polygonlabels")); [|eauto].
    destruct (first_label_dict d "polygonlabels") as [l ->]. simpl. eauto.
Qed.










(** The mask branch: whatever decoding raises is caught and the region is
    skipped *)
Lemma mask_decode_failure_skips is_polygon value r width height e :
  py_get value "rle" = Ok r →
  (items ← py_iter (py_or r (PList []));
   _decode_brush_rle_to_mask items width height) = Raise e →
  region_shape true is_polygon value width height = Ok None.
Proof. intros Hr Hdec. unfold region_shape. rewrite Hr. simpl. by rewrite Hdec. Qed.

(** The mask branch raises nothing on a value that is a dict, whatever its
    rle entry holds *)
Lemma mask_branch_never_raises is_polygon (d : list (string * pyval))
    width height :
  ∃ shape, region_shape true is_polygon (PDict d) width height = Ok shape.
Proof.
  unfold region_shape. cbn [py_get mbind result_bind].
  destruct (py_iter (py_or (dict_get d "rle") (PList [])) ≫= _) as [m|e];
    [|by eexists].
  destruct (first_label_dict d "brushlabels") as [own Hown].
  rewrite Hown. by eexists.
Qed.

(** Without rows the archive holds the note file and nothing else *)
Lemma export_without_rows tasks download_resources hostname tr :
  tasks_loop download_resources hostname 0 tasks ([], []) = Ok ([], tr) →
  export_segmentation_metrics tasks download_resources hostname
  = Ok ({["README.txt" := TextFile readme_text]}, "application/zip",
        "project-" +:+ string_of_Z project_id +:+ "-segmentation.csv.zip").
Proof.
  intros Hloop. unfold export_segmentation_metrics. by rewrite Hloop.
Qed.

(** With one entry in the task data every result points at that entry *)
Lemma image_url_single (k : string) (v to_name : pyval) :
  image_url_for (PDict [(k, v)]) to_name = Ok v.
Proof.
  unfold image_url_for.
  assert (Hl : ∀ key, lookup_image_url (PDict [(k, v)]) key = Ok v).
  { intros [key|]; simpl; [|done]. rewrite orb_false_r.
    destruct (String.eqb key k) eqn:E; [|done].
    apply String.eqb_eq in E as ->. by rewrite String.eqb_refl. }
  destruct (_get_object_value_key_for_result to_name) as [key|];
    [destruct (String.eqb key "")|];
    cbn [first_key mbind result_bind]; apply Hl.
Qed.

Lemma malformed_polygon_raises download_resources hostname task_id_ ann_id
    lbl ta oid rbi tr :
  process_result download_resources hostname task_id_ ann_id
    (PDict [("image", PStr "a.png")]) lbl ta oid
    {| rows_by_image := rbi; processed_region_ids := ∅; trace := tr |}
    malformed_polygon_result
  = Raise ValueError.
Proof.
  unfold process_result, resolve_region, malformed_polygon_result.
  cbn [py_get dict_get String.eqb Ascii.eqb Bool.eqb mbind result_bind py_or
       py_truthy negb py_lower].
  rewrite str_lower_uncased by reflexivity.
  rewrite image_url_single.
  cbn. unfold emit_region. cbn.
  rewrite decide_False by apply not_elem_of_empty.
  unfold region_shape. by cbn.
Qed.

(** C4, where the code departs from it. A polygon region whose vertex has a
    single coordinate makes [_polygon_points_percent_to_px] raise, and
    nothing between it and the caller of [export_segmentation_metrics]
    catches the exception: the whole export raises instead of skipping the
    region. *)
Theorem malformed_polygon_escapes (download_resources : bool)
    (hostname : option string) :
  export_segmentation_metrics [sample_task [malformed_polygon_result]]
    download_resources hostname
  = Raise ValueError.
Proof.
  unfold export_segmentation_metrics, sample_task.
  cbn [tasks_loop process_task py_get dict_get String.eqb Ascii.eqb Bool.eqb
       mbind result_bind py_or py_truthy py_iter annotations_loop
       process_annotation results_loop].
  assert (Hpre : ∃ lbl ta,
            prescan [malformed_polygon_result] (∅, ∅) = Ok (lbl, ta))
    by (by eexists _, _).
  destruct Hpre as (lbl & ta & ->).
  cbn [mbind result_bind fst snd].
  by rewrite malformed_polygon_raises.
Qed.

End Properties.

(** * The properties on concrete inputs *)

(** C1, as stated, fails: the decoder returns [T,F,T,T,F,F,F] on the
    reference scenario, which differs from the mask [F,T,F,F,T,T,F] of the
    specification. *)
Lemma decode_reference_scenario_differs :
  (∀ P : Python,
     @_decode_brush_rle_to_mask P (PInt <$> [0; 1; 1; 2; 3]) 7 1
     = Ok [[true; false; true; true; false; false; false]])
  ∧ [[true; false; true; true; false; false; false]]
    ≠ [[false; true; false; false; true; true; false]].
Proof. split; [intros P; reflexivity|discriminate]. Qed.

Lemma decode_brush_rle_refines_spec_witness :
  ∃ m : mask,
    @_decode_brush_rle_to_mask Toy.python (PInt <$> [2; 0; 3; -1; 5]) 3 2 = Ok m
    ∧ length m = Z.to_nat 2
    ∧ Forall (λ row, length row = Z.to_nat 3) m
    ∧ concat m = spec_runs [2; 0; 3; -1; 5] false (Z.to_nat (3 * 2)).
Proof.
  apply (@decode_brush_rle_refines_spec Toy.python [2; 0; 3; -1; 5] 3 2); lia.
Defined.

Lemma rasterize_polygon_empty_witness :
  ∃ m : mask,
    @_rasterize_polygon Toy.python Toy.pillow [] 4 3 = Ok m
    ∧ length m = Z.to_nat 3
    ∧ Forall (λ row, length row = Z.to_nat 4 ∧ Forall (λ b, b = false) row) m.
Proof.
  apply (@rasterize_polygon_empty Toy.python Toy.pillow 4 3); lia.
Defined.

Lemma compute_bbox_and_area_spec_witness :
  (∃ r c, pixel sample_mask r c = true)
  ∧ ∃ (min_col max_col min_row max_row : Z) (trues : list (Z * Z)),
      (∃ r, pixel sample_mask r min_col = true)
      ∧ (∃ r, pixel sample_mask r max_col = true)
      ∧ (∃ c, pixel sample_mask min_row c = true)
      ∧ (∃ c, pixel sample_mask max_row c = true)
      ∧ (∀ r c, pixel sample_mask r c = true →
                min_col ≤ c ≤ max_col ∧ min_row ≤ r ≤ max_row)
      ∧ NoDup trues
      ∧ (∀ r c, (r, c) ∈ trues ↔ pixel sample_mask r c = true)
      ∧ _compute_bbox_and_area sample_mask
        = (min_col, min_row, max_col - min_col, max_row - min_row,
           Z.of_nat (length trues)).
Proof.
  assert (∃ r c, pixel sample_mask r c = true)
    as Hsome by (exists 0, 1; reflexivity).
  split; [exact Hsome|].
  exact (proj2 (compute_bbox_and_area_spec _) Hsome).
Defined.

Lemma compute_intensities_absent_witness :
  @_compute_intensities Toy.python Toy.pillow [[10; 20]; [30; 40]]
    [[false; false]; [false; false]] = Ok (None, None, None, None)
  ∧ @_compute_intensities Toy.python Toy.pillow [[10; 20]; [30; 40]]
      [[false; true]; [false; false]] = Ok (Some 20, None, None, None).
Proof.
  split.
  - apply (proj1 (@compute_intensities_absent Toy.python Toy.pillow
                    [[10; 20]; [30; 40]] [[false; false]; [false; false]])).
    intros r c. unfold pixel.
    destruct ((r <? 0) || (c <? 0)); [reflexivity|].
    destruct (Z.to_nat r) as [|[|[|?]]]; simpl; try reflexivity;
      destruct (Z.to_nat c) as [|[|[|?]]]; reflexivity.
  - apply (proj2 (@compute_intensities_absent Toy.python Toy.pillow
                    [[10; 20]; [30; 40]] [[false; true]; [false; false]])
             ltac:(by apply elem_of_cons; left)
             ltac:(by exists 0, 1)
             [[10; 20]; [30; 40]] 20); reflexivity.
Defined.

Lemma unlisted_one_band_mode_gets_colour_witness :
  @_compute_intensities Toy.python (Toy.pillow_of_mode "1")
    [[10; 20]; [30; 40]] [[false; true]; [false; false]]
  = Ok (Some 20, Some 20, Some 20, Some 20)
  ∧ @_compute_intensities Toy.python (Toy.pillow_of_mode "I;16B")
      [[10; 20]; [30; 40]] [[false; true]; [false; false]]
    = Ok (Some 20, Some 20, Some 20, Some 20).
Proof.
  split.
  - apply (proj2 (@unlisted_one_band_mode_gets_colour Toy.python
                    (Toy.pillow_of_mode "1")
                    [[10; 20]; [30; 40]] [[false; true]; [false; false]]
                    ltac:(by apply list_elem_of_In; left)
                    ltac:(by exists 0, 1))
             [[10; 20]; [30; 40]] [[10; 20]; [30; 40]] [[10; 20]; [30; 40]]
             [[10; 20]; [30; 40]] 20 20 20 20); reflexivity.
  - apply (proj2 (@unlisted_one_band_mode_gets_colour Toy.python
                    (Toy.pillow_of_mode "I;16B")
                    [[10; 20]; [30; 40]] [[false; true]; [false; false]]
                    ltac:(by apply list_elem_of_In; right; right; right; left)
                    ltac:(by exists 0, 1))
             [[10; 20]; [30; 40]] [[10; 20]; [30; 40]] [[10; 20]; [30; 40]]
             [[10; 20]; [30; 40]] 20 20 20 20); reflexivity.
Defined.

Lemma region_processed_at_most_once_witness :
  (∃ st' new,
     @process_annotation Toy.python Toy.pillow Toy.world false None (PInt 7)
       sample_data 0 0 ([], [])
       (toy_annotation [brush_result [1; 2]; brush_result [1; 2]]) = Ok st'
     ∧ all_rows st'.1 ≡ₚ all_rows [] ++ new
     ∧ NoDup (row_region_key <$> new))
  ∧ @process_result Toy.python Toy.pillow Toy.world false None (PInt 7)
      (PInt 3) sample_data ∅ ∅ 1000 seen_r1 (brush_result [1; 2])
    = Ok seen_r1.
Proof.
  split.
  - destruct (proj1 (@region_processed_at_most_once Toy.python Toy.pillow
                       Toy.world)
                false None (PInt 7) sample_data 0%nat 0%nat ([], [])
                (toy_annotation [brush_result [1; 2]; brush_result [1; 2]])
                _ eq_refl) as (new & Hperm & Hnd).
    eexists _, new. split; [reflexivity|]. split; [exact Hperm|exact Hnd].
  - eapply (proj2 (@region_processed_at_most_once Toy.python Toy.pillow
                     Toy.world)
              false None (PInt 7) (PInt 3) sample_data ∅ ∅ 1000 seen_r1
              (brush_result [1; 2])).
    + reflexivity.
    + by apply elem_of_singleton.
Defined.




(** * Further properties of the exporter *)

Section Coverage.
Context `{World}.

#[local] Arguments np_slice_fill : simpl never.
#[local] Arguments num_min : simpl never.
#[local] Arguments np_reshape : simpl never.
#[local] Arguments np_min : simpl never.
#[local] Arguments np_max : simpl never.
#[local] Arguments np_sum : simpl never.

(** ** Mask decoder *)

Lemma slice_index_le (len i : Z) : 0 ≤ len → (slice_index len i ≤ Z.to_nat len)%nat.
Proof.
  intros Hlen. unfold slice_index. destruct (i <? 0) eqn:E; lia.
Qed.

Lemma np_slice_fill_length flat_ i e v flat' :
  np_slice_fill flat_ i e v = Ok flat' → length flat' = length flat_.
Proof.
  unfold np_slice_fill. destruct i as [a|]; [|done]. destruct e as [b|]; [|done].
  intros [= <-].
  pose proof (slice_index_le (Z.of_nat (length flat_)) a ltac:(lia)).
  pose proof (slice_index_le (Z.of_nat (length flat_)) b ltac:(lia)).
  rewrite !length_app, length_take, length_replicate, length_drop. lia.
Qed.

Lemma decode_loop_length total (rle : list pyval) : ∀ st st',
  decode_loop total rle st = Ok st' → length (flat st') = length (flat st).
Proof.
  induction rle as [|count rest IH]; intros st st' Hrun; simpl in Hrun.
  - by injection Hrun as <-.
  - destruct (py_le_zero count) as [[]|]; simpl in Hrun; [| |done].
    + by apply IH in Hrun.
    + destruct (num_add (idx st) count) as [s|]; simpl in Hrun; [|done].
      destruct (value st =? 1).
      * destruct (np_slice_fill _ _ _ _) as [flat'|] eqn:Efill;
          simpl in Hrun; [|done].
        apply np_slice_fill_length in Efill.
        destruct (num_geb _ _);
          [injection Hrun as <-|apply IH in Hrun; simpl in Hrun]; simpl; congruence.
      * simpl in Hrun.
        destruct (num_geb _ _);
          [by injection Hrun as <-|by apply IH in Hrun].
Qed.

(** X1. Whatever the run-length list holds (numbers or not), a mask the
    decoder returns has the requested shape: both dimensions are
    non-negative, there are [height] rows and every row has [width]
    entries. *)
Theorem decode_shape (rle : list pyval) (width height : Z) (m : mask) :
  _decode_brush_rle_to_mask rle width height = Ok m →
  0 ≤ width ∧ 0 ≤ height
  ∧ length m = Z.to_nat height
  ∧ Forall (λ row, length row = Z.to_nat width) m.
Proof.
  unfold _decode_brush_rle_to_mask, np_zeros. intros Hrun.
  destruct (width * height <? 0) eqn:Etot; [done|]. apply Z.ltb_ge in Etot.
  simpl in Hrun.
  destruct (decode_loop _ _ _) as [st|] eqn:Eloop; simpl in Hrun; [|done].
  apply decode_loop_length in Eloop. simpl in Eloop.
  rewrite length_replicate in Eloop.
  unfold np_reshape in Hrun. rewrite Eloop in Hrun.
  destruct ((0 <=? height) && (0 <=? width)) eqn:Edims.
  - apply andb_true_iff in Edims as [Hh%Z.leb_le Hw%Z.leb_le].
    destruct (height * width =? _) eqn:Elen; simpl in Hrun; [|done].
    injection Hrun as <-.
    split; [done|]. split; [done|].
    split; [by rewrite length_map, chunks_length|].
    apply Forall_map. eapply Forall_impl.
    + apply chunks_row_lengths. rewrite Eloop. nia.
    + intros row Hrow. simpl. by rewrite length_map.
  - exfalso. apply andb_false_iff in Edims.
    destruct (height =? -1) eqn:Eh.
    { apply Z.eqb_eq in Eh. destruct (0 <? width) eqn:Ew.
      - apply Z.ltb_lt in Ew. nia.
      - simpl in Hrun. destruct (width =? -1) eqn:Ew1; simpl in Hrun; [|done].
        destruct (0 <? height) eqn:Eh0; [apply Z.ltb_lt in Eh0; lia|done]. }
    simpl in Hrun. destruct (width =? -1) eqn:Ew1; simpl in Hrun; [|done].
    apply Z.eqb_eq in Ew1.
    destruct (0 <? height) eqn:Eh0; simpl in Hrun; [|done].
    apply Z.ltb_lt in Eh0. nia.
Qed.

Lemma positive_total_nonneg (rle : list Z) : 0 ≤ positive_total rle.
Proof. induction rle as [|c rle IH]; simpl; lia. Qed.

(** While the grid is not full the loop walks through a prefix of ints and
    stops nowhere: it reaches what follows the prefix with the index moved
    by the positive counts *)
Lemma decode_loop_prefix total (rle : list Z) : ∀ st i,
  idx st = NInt i → positive_total rle < total - i →
  ∃ st',
    idx st' = NInt (i + positive_total rle)
    ∧ ∀ tail, decode_loop total ((PInt <$> rle) ++ tail) st
              = decode_loop total tail st'.
Proof.
  induction rle as [|c rest IH]; intros st i Hidx Hsum; simpl in Hsum.
  - exists st. rewrite Z.add_0_r. done.
  - pose proof (positive_total_nonneg rest) as Hnn.
    destruct (Z.leb_spec c 0) as [Hc|Hc].
    + destruct (IH {| flat := flat st; value := 1 - value st; idx := idx st |} i)
        as (st' & Hidx' & Hrun); [done|lia|].
      exists st'. split; [rewrite Hidx'; simpl; f_equal; lia|].
      intros tail. simpl.
      replace (c <=? 0) with true by (symmetry; by apply Z.leb_le).
      simpl. apply Hrun.
    + assert (Hmin : num_min (NInt (i + c)) total = NInt (i + c)).
      { unfold num_min.
        replace (total <? i + c) with false; [done|].
        symmetry. apply Z.ltb_ge. lia. }
      assert (Hfill : ∃ flat',
        (if value st =? 1
         then np_slice_fill (flat st) (NInt i) (NInt (i + c)) 1
         else Ok (flat st)) = Ok flat').
      { destruct (value st =? 1); [|by eexists]. unfold np_slice_fill.
        by eexists. }
      destruct Hfill as [flat' Hfill].
      destruct (IH {| flat := flat'; value := 1 - value st; idx := NInt (i + c) |}
                  (i + c)) as (st' & Hidx' & Hrun); [done|lia|].
      exists st'. split; [rewrite Hidx'; simpl; f_equal; lia|].
      intros tail. simpl.
      replace (c <=? 0) with false by (symmetry; by apply Z.leb_gt).
      simpl. rewrite Hidx. simpl. rewrite Hmin, Hfill. simpl.
      replace (total <=? i + c) with false
        by (symmetry; apply Z.leb_gt; lia).
      apply Hrun.
Qed.

(** Once the positive counts fill the grid the loop has left through its
    [break]: what follows in the list plays no part *)
Lemma decode_loop_break total (rle : list Z) (tail : list pyval) : ∀ st i,
  idx st = NInt i → i < total → total - i ≤ positive_total rle →
  decode_loop total ((PInt <$> rle) ++ tail) st
  = decode_loop total (PInt <$> rle) st.
Proof.
  induction rle as [|c rest IH]; intros st i Hidx Hi Hsum; simpl in Hsum.
  - lia.
  - simpl. destruct (c <=? 0) eqn:Ec; simpl.
    + apply Z.leb_le in Ec. eapply IH; [done|done|lia].
    + apply Z.leb_gt in Ec. rewrite Hidx. simpl.
      destruct (value st =? 1).
      * destruct (np_slice_fill _ _ _ _) as [flat'|]; simpl; [|done].
        destruct (num_geb _ _) eqn:Ege; [done|].
        unfold num_min in *. destruct (total <? i + c) eqn:Elt;
          simpl in Ege; [apply Z.leb_gt in Ege; lia|].
        apply Z.leb_gt in Ege. eapply IH; [done|done|lia].
      * simpl. destruct (num_geb _ _) eqn:Ege; [done|].
        unfold num_min in *. destruct (total <? i + c) eqn:Elt;
          simpl in Ege; [apply Z.leb_gt in Ege; lia|].
        apply Z.leb_gt in Ege. eapply IH; [done|done|lia].
Qed.

(** X2. The decoder stops reading at its [break]: when the positive counts
    of a list of ints cover the grid, anything appended to the list, numbers
    or not, changes nothing in the result. *)
Theorem decode_ignores_tail (rle : list Z) (tail : list pyval)
    (width height : Z) :
  0 < width * height ≤ positive_total rle →
  _decode_brush_rle_to_mask ((PInt <$> rle) ++ tail) width height
  = _decode_brush_rle_to_mask (PInt <$> rle) width height.
Proof.
  intros [Hpos Hsum]. unfold _decode_brush_rle_to_mask.
  destruct (np_zeros (width * height)) as [flat0|]; simpl; [|done].
  by rewrite (decode_loop_break _ _ _ _ 0) by (simpl; done || lia).
Qed.

(** X3. An entry that is no number and is reached before the grid is full
    makes the decoder raise TypeError: the positive counts before it fall
    short of [width * height]. *)
Theorem decode_rejects_reached_entry (rle : list Z) (bad : pyval)
    (tail : list pyval) (width height : Z) :
  positive_total rle < width * height →
  py_le_zero bad = Raise TypeError →
  _decode_brush_rle_to_mask ((PInt <$> rle) ++ bad :: tail) width height
  = Raise TypeError.
Proof.
  intros Hsum Hbad. unfold _decode_brush_rle_to_mask, np_zeros.
  pose proof (positive_total_nonneg rle) as Hnn.
  destruct (width * height <? 0) eqn:E; [apply Z.ltb_lt in E; lia|]. simpl.
  destruct (decode_loop_prefix (width * height) rle
              {| flat := replicate (Z.to_nat (width * height)) 0;
                 value := 0; idx := NInt 0 |} 0)
    as (st' & _ & Hrun); [done|lia|].
  rewrite Hrun. simpl. by rewrite Hbad.
Qed.

(** With a negative dimension the decoder raises, whatever the list holds *)
Lemma decode_negative_raises (rle : list pyval) (width height : Z) :
  width < 0 ∨ height < 0 →
  ∃ e, _decode_brush_rle_to_mask rle width height = Raise e.
Proof.
  intros Hneg. unfold _decode_brush_rle_to_mask, np_zeros.
  destruct (width * height <? 0) eqn:Etot; [by eexists|].
  apply Z.ltb_ge in Etot. simpl.
  destruct (decode_loop _ _ _) as [st|]; simpl; [|by eexists].
  unfold np_reshape.
  replace ((0 <=? height) && (0 <=? width)) with false.
  2:{ symmetry. apply andb_false_iff.
      destruct Hneg; [right|left]; apply Z.leb_gt; lia. }
  replace ((height =? -1) && (0 <? width)) with false.
  2:{ symmetry. apply andb_false_iff.
      destruct (Z.eqb_spec height (-1)); [|by left].
      right. apply Z.ltb_ge. nia. }
  replace ((width =? -1) && (0 <? height)) with false.
  2:{ symmetry. apply andb_false_iff.
      destruct (Z.eqb_spec width (-1)); [|by left].
      right. apply Z.ltb_ge. nia. }
  simpl. by eexists.
Qed.

(** The runs of a flattened mask walk back to it *)
Lemma spec_runs_rle_runs (l : list bool) : ∀ cur run,
  spec_runs (rle_runs cur run l) cur (run + length l)
  = replicate run cur ++ l.
Proof.
  induction l as [|b l IH]; intros cur run; simpl.
  - rewrite Nat.add_0_r, app_nil_r. destruct run as [|run].
    + done.
    + replace (Z.of_nat (S run) <=? 0) with false
        by (symmetry; apply Z.leb_gt; lia).
      rewrite Nat2Z.id, Nat.min_id, Nat.sub_diag. simpl.
      by rewrite app_nil_r.
  - destruct (Bool.eqb b cur) eqn:Eb.
    + apply Bool.eqb_prop in Eb as ->.
      replace (run + S (length l))%nat with (S run + length l)%nat by lia.
      rewrite IH. rewrite replicate_S_end, <- app_assoc. done.
    + assert (b = negb cur) as -> by (by destruct b, cur).
      simpl. destruct run as [|run].
      * simpl. specialize (IH (negb cur) 1%nat). simpl in IH. by rewrite IH.
      * replace (Z.of_nat (S run) <=? 0) with false
          by (symmetry; apply Z.leb_gt; lia).
        rewrite Nat2Z.id.
        replace (S run `min` (S run + S (length l)))%nat with (S run) by lia.
        replace (S run + S (length l) - S run)%nat with (S (length l)) by lia.
        simpl. f_equal. f_equal.
        specialize (IH (negb cur) 1%nat). simpl in IH. by rewrite IH.
Qed.

(** Two grids with the same row lengths and the same flattening are equal *)
Lemma grid_eq_concat (cols : nat) (m1 : mask) : ∀ m2 : mask,
  (0 < cols)%nat →
  Forall (λ row, length row = cols) m1 → Forall (λ row, length row = cols) m2 →
  concat m1 = concat m2 → m1 = m2.
Proof.
  induction m1 as [|row1 m1 IH]; intros m2 Hcols Hm1 Hm2 Hcat.
  - destruct m2 as [|row2 m2]; [done|]. simpl in Hcat.
    apply Forall_cons in Hm2 as [Hrow2 _].
    symmetry in Hcat. apply app_eq_nil in Hcat as [-> _]. simpl in Hrow2. lia.
  - apply Forall_cons in Hm1 as [Hrow1 Hm1].
    destruct m2 as [|row2 m2].
    + simpl in Hcat. apply app_eq_nil in Hcat as [-> _]. simpl in Hrow1. lia.
    + apply Forall_cons in Hm2 as [Hrow2 Hm2]. simpl in Hcat.
      apply app_inj_1 in Hcat as [-> Hcat]; [|congruence].
      f_equal. by apply IH.
Qed.

(** The decoder on ints, as the walk over the runs (shared by the proofs
    below) *)
Lemma decode_ints_walk (rle : list Z) (width height : Z) :
  1 ≤ width → 1 ≤ height →
  ∃ m : mask,
    _decode_brush_rle_to_mask (PInt <$> rle) width height = Ok m
    ∧ length m = Z.to_nat height
    ∧ Forall (λ row, length row = Z.to_nat width) m
    ∧ concat m = spec_runs rle false (Z.to_nat (width * height)).
Proof.
  intros Hw Hh. unfold _decode_brush_rle_to_mask, np_zeros.
  destruct (width * height <? 0) eqn:E; [apply Z.ltb_lt in E; nia|]. simpl.
  destruct (decode_loop_refines (width * height) rle [] false 0)
    as (st' & Hrun & Hflat); [nia|done|].
  simpl in Hrun. rewrite Z.sub_0_r in Hrun, Hflat. rewrite Hrun. simpl.
  simpl in Hflat. rewrite Hflat. unfold np_reshape.
  rewrite length_fmap, spec_runs_length.
  replace ((0 <=? height) && (0 <=? width)) with true
    by (symmetry; apply andb_true_iff; split; apply Z.leb_le; lia).
  replace (height * width =? Z.of_nat (Z.to_nat (width * height))) with true
    by (symmetry; apply Z.eqb_eq; nia).
  simpl. eexists; split; [done|].
  assert (Hlen : length (Z.b2z <$> spec_runs rle false
                           (Z.to_nat (width * height)))
                 = (Z.to_nat height * Z.to_nat width)%nat)
    by (rewrite length_fmap, spec_runs_length; nia).
  split; [by rewrite length_map, chunks_length|]. split.
  - apply Forall_map.
    eapply Forall_impl; [by apply chunks_row_lengths|].
    intros row Hrow. simpl. by rewrite length_map.
  - by rewrite concat_map_map, chunks_concat, positive_b2z.
Qed.

Lemma rle_runs_nonneg (l : list bool) : ∀ cur run,
  Forall (λ count, 0 ≤ count) (rle_runs cur run l).
Proof.
  induction l as [|b l IH]; intros cur run; simpl.
  - constructor; [lia|constructor].
  - destruct (Bool.eqb b cur); [apply IH|]. constructor; [lia|apply IH].
Qed.

Lemma concat_length_rows (cols : nat) (m : mask) :
  Forall (λ row, length row = cols) m →
  length (concat m) = (length m * cols)%nat.
Proof.
  induction 1 as [|row m Hrow _ IH]; simpl; [done|].
  rewrite length_app, IH, Hrow. done.
Qed.

(** X4. Round trip. Every mask of [height] rows and [width] columns is what
    the decoder returns on a list of non-negative run lengths: the
    background-first run lengths of its row-major flattening
    ([rle_encode]). *)
Theorem decode_encode_round_trip (m : mask) (width height : Z) :
  1 ≤ width → 1 ≤ height →
  length m = Z.to_nat height →
  Forall (λ row, length row = Z.to_nat width) m →
  Forall (λ count, 0 ≤ count) (rle_encode (concat m))
  ∧ _decode_brush_rle_to_mask (PInt <$> rle_encode (concat m)) width height
    = Ok m.
Proof.
  intros Hw Hh Hrows Hcols. split; [apply rle_runs_nonneg|].
  destruct (decode_ints_walk (rle_encode (concat m)) width height Hw Hh)
    as (m' & Hrun & Hrows' & Hcols' & Hflat).
  rewrite Hrun. f_equal.
  apply (grid_eq_concat (Z.to_nat width)); [lia|done|done|].
  rewrite Hflat. unfold rle_encode.
  pose proof (spec_runs_rle_runs (concat m) false 0) as Hwalk.
  simpl in Hwalk.
  replace (Z.to_nat (width * height)) with (length (concat m)); [done|].
  rewrite (concat_length_rows (Z.to_nat width)) by done. nia.
Qed.

(** ** Regions whose resolved size is negative *)

#[local] Arguments region_shape : simpl never.

(** X5. A declared size with a negative side never reaches the table through
    the mask branch: whatever the value of the result holds, decoding raises,
    the exception is caught and the region is skipped. A polygon region
    without points takes no such care: [np.zeros] raises ValueError and
    nothing catches it. *)
Theorem negative_size_regions (d : list (string * pyval)) (is_polygon : bool)
    (width height : Z) :
  width < 0 ∨ height < 0 →
  region_shape true is_polygon (PDict d) width height = Ok None
  ∧ (py_truthy (dict_get d "points") = false →
     region_shape false true (PDict d) width height = Raise ValueError).
Proof.
  intros Hneg. unfold region_shape. cbn [py_get mbind result_bind]. split.
  - destruct (py_iter (py_or (dict_get d "rle") (PList []))) as [items|];
      cbn [mbind result_bind]; [|done].
    by destruct (decode_negative_raises items width height Hneg) as [e ->].
  - intros Hpts. unfold py_or. rewrite Hpts.
    cbn [_polygon_points_percent_to_px py_iter points_percent_to_px_loop
         mbind result_bind _rasterize_polygon].
    unfold np_zeros2.
    replace ((height <? 0) || (width <? 0)) with true; [done|].
    symmetry. apply orb_true_iff.
    destruct Hneg; [right|left]; by apply Z.ltb_lt.
Qed.

(** ** Region geometry analyser *)

#[local] Arguments _compute_bbox_and_area : simpl never.

(** Distinct points of a rectangle are at most as many as the rectangle has *)
Lemma rectangle_count (ps : list (Z * Z)) (y0 y1 x0 x1 : Z) :
  NoDup ps →
  (∀ y x, (y, x) ∈ ps → y0 ≤ y ≤ y1 ∧ x0 ≤ x ≤ x1) →
  Z.of_nat (length ps) ≤ Z.max 0 (y1 - y0 + 1) * Z.max 0 (x1 - x0 + 1).
Proof.
  intros Hnd Hin.
  set (rect := list_prod (seqZ y0 (y1 - y0 + 1)) (seqZ x0 (x1 - x0 + 1))).
  assert (length ps ≤ length rect)%nat as Hle.
  { apply submseteq_length, NoDup_submseteq; [done|]. intros [y x] Hyx.
    destruct (Hin y x Hyx) as [Hy Hx].
    apply list_elem_of_In, in_prod; apply list_elem_of_In, elem_of_seqZ; lia. }
  unfold rect in Hle. rewrite length_prod, !length_seqZ in Hle. nia.
Qed.

(** The five numbers of the analyser, with the extreme true pixels that give
    them *)
Lemma bbox_of_true_pixels (m : mask) (y x : Z) :
  pixel m y x = true →
  ∃ x_min x_max y_min y_max,
    _compute_bbox_and_area m
    = (x_min, y_min, x_max - x_min, y_max - y_min,
       Z.of_nat (length (where_rows 0 m)))
    ∧ (∃ r, pixel m r x_min = true) ∧ (∃ r, pixel m r x_max = true)
    ∧ (∃ c, pixel m y_min c = true) ∧ (∃ c, pixel m y_max c = true)
    ∧ (∀ r c, pixel m r c = true → x_min ≤ c ≤ x_max ∧ y_min ≤ r ≤ y_max).
Proof.
  intros Hyx. unfold _compute_bbox_and_area, np_where.
  pose proof (where_rows_pixel m) as Hpix.
  pose proof (where_rows_length m 0) as Hlen.
  destruct (where_rows 0 m) as [|p ps] eqn:Eps.
  { apply Hpix in Hyx. by apply elem_of_nil in Hyx. }
  set (xs := map snd (p :: ps)). set (ys := map fst (p :: ps)).
  assert (Hxs : xs ≠ []) by (by destruct p).
  assert (Hys : ys ≠ []) by (by destruct p).
  destruct (np_min_spec xs Hxs) as [Hminx_in Hminx].
  destruct (np_max_spec xs Hxs) as [Hmaxx_in Hmaxx].
  destruct (np_min_spec ys Hys) as [Hminy_in Hminy].
  destruct (np_max_spec ys Hys) as [Hmaxy_in Hmaxy].
  assert (Hcol : ∀ c, c ∈ xs ↔ ∃ r, pixel m r c = true).
  { intros c. unfold xs. rewrite list_elem_of_fmap. split.
    - intros ([r c'] & -> & Hin). exists r. by apply Hpix.
    - intros (r & Hr). exists (r, c). split; [done|]. by apply Hpix. }
  assert (Hrow : ∀ r, r ∈ ys ↔ ∃ c, pixel m r c = true).
  { intros r. unfold ys. rewrite list_elem_of_fmap. split.
    - intros ([r' c] & -> & Hin). exists c. by apply Hpix.
    - intros (c & Hc). exists (r, c). split; [done|]. by apply Hpix. }
  exists (np_min xs), (np_max xs), (np_min ys), (np_max ys).
  split.
  { replace ((length xs =? 0)%nat || (length ys =? 0)%nat) with false
      by (unfold xs, ys; by destruct p).
    rewrite Hlen. rewrite !Z.max_r; [done| |].
    - specialize (Hminy _ Hmaxy_in). lia.
    - specialize (Hminx _ Hmaxx_in). lia. }
  split; [by apply Hcol|]. split; [by apply Hcol|].
  split; [by apply Hrow|]. split; [by apply Hrow|].
  intros r c Hrc.
  assert (c ∈ xs) by (apply Hcol; eauto).
  assert (r ∈ ys) by (apply Hrow; eauto).
  split; split; auto.
Qed.

Lemma no_true_pixel_dec (m : mask) :
  (∀ r c, pixel m r c = false) ∨ (∃ r c, pixel m r c = true).
Proof.
  destruct (where_rows 0 m) as [|[y x] ps] eqn:E.
  - left. intros r c. apply not_true_iff_false. intros Hrc.
    apply where_rows_pixel in Hrc. rewrite E in Hrc. by apply elem_of_nil in Hrc.
  - right. exists y, x. apply where_rows_pixel. rewrite E.
    apply elem_of_cons. by left.
Qed.

(** X6. The numbers the analyser returns are never negative, the area is
    zero exactly when the mask has no true pixel, and the area never exceeds
    the pixels of the inclusive bounding box,
    [(x_length + 1) * (y_length + 1)]. *)
Theorem bbox_area_bounds (m : mask) :
  ∃ bbox_x bbox_y x_length y_length area,
    _compute_bbox_and_area m = (bbox_x, bbox_y, x_length, y_length, area)
    ∧ 0 ≤ bbox_x ∧ 0 ≤ bbox_y ∧ 0 ≤ x_length ∧ 0 ≤ y_length
    ∧ 0 ≤ area ≤ (x_length + 1) * (y_length + 1)
    ∧ (area = 0 ↔ ∀ r c, pixel m r c = false).
Proof.
  destruct (no_true_pixel_dec m) as [Hnone|(y & x & Hyx)].
  - exists 0, 0, 0, 0, 0. rewrite bbox_no_true_pixel by done.
    repeat split; try lia; done.
  - destruct (bbox_of_true_pixels m y x Hyx)
      as (x_min & x_max & y_min & y_max & -> & [r1 H1'] & _ & [c1 H2'] & _ & Hall).
    eexists _, _, _, _, _. split; [done|].
    pose proof (Hall _ _ Hyx) as [Hx Hy].
    apply pixel_true in H1' as (_ & Hxmin & _).
    apply pixel_true in H2' as (Hymin & _ & _).
    pose proof (rectangle_count (where_rows 0 m) y_min y_max x_min x_max
                  (where_rows_NoDup m 0)) as Hcount.
    assert (Hin : (y, x) ∈ where_rows 0 m) by (by apply where_rows_pixel).
    assert (0 < Z.of_nat (length (where_rows 0 m))) as Hpos.
    { destruct (where_rows 0 m); [by apply elem_of_nil in Hin|]. simpl. lia. }
    split; [done|]. split; [done|]. split; [lia|]. split; [lia|].
    split.
    { split; [lia|]. etrans; [apply Hcount|].
      - intros y' x' Hin'. apply where_rows_pixel in Hin'.
        destruct (Hall _ _ Hin'). lia.
      - rewrite !Z.max_r by lia. lia. }
    split; [lia|]. intros Hnone. by rewrite Hnone in Hyx.
Qed.

Lemma pixel_inside (m : mask) (width height : Z) (r c : Z) :
  length m = Z.to_nat height →
  Forall (λ row, length row = Z.to_nat width) m →
  pixel m r c = true → 0 ≤ r < height ∧ 0 ≤ c < width.
Proof.
  intros Hrows Hcols (Hr & Hc & Hl)%pixel_true.
  destruct (m !! Z.to_nat r) as [row|] eqn:Er; [|done]. simpl in Hl.
  pose proof (lookup_lt_Some _ _ _ Er) as Hlt.
  pose proof (lookup_lt_Some _ _ _ Hl) as Hlt'.
  rewrite Forall_forall in Hcols.
  rewrite (Hcols row) in Hlt' by (by eapply list_elem_of_lookup_2).
  lia.
Qed.

(** X7. On a mask of [height] rows and [width] columns the bounding box lies
    inside the image: origin plus extent stays below the width and the
    height. *)
Theorem bbox_inside_image (m : mask) (width height : Z) :
  1 ≤ width → 1 ≤ height →
  length m = Z.to_nat height →
  Forall (λ row, length row = Z.to_nat width) m →
  ∃ bbox_x bbox_y x_length y_length area,
    _compute_bbox_and_area m = (bbox_x, bbox_y, x_length, y_length, area)
    ∧ 0 ≤ bbox_x ∧ bbox_x + x_length < width
    ∧ 0 ≤ bbox_y ∧ bbox_y + y_length < height
    ∧ area ≤ width * height.
Proof.
  intros Hw Hh Hrows Hcols.
  destruct (no_true_pixel_dec m) as [Hnone|(y & x & Hyx)].
  - exists 0, 0, 0, 0, 0. rewrite bbox_no_true_pixel by done.
    repeat split; try lia; nia.
  - destruct (bbox_of_true_pixels m y x Hyx)
      as (x_min & x_max & y_min & y_max & -> & [r1 Hmin1] & [r2 Hmax1]
          & [c1 Hmin2] & [c2 Hmax2] & Hall).
    eexists _, _, _, _, _. split; [done|].
    apply (pixel_inside m width height) in Hmin1, Hmax1, Hmin2, Hmax2;
      try done.
    split; [lia|]. split; [lia|]. split; [lia|]. split; [lia|].
    pose proof (rectangle_count (where_rows 0 m) 0 (height - 1) 0 (width - 1)
                  (where_rows_NoDup m 0)) as Hcount.
    etrans; [apply Hcount|].
    + intros y' x' Hin'. apply where_rows_pixel in Hin'.
      apply (pixel_inside m width height) in Hin'; try done. lia.
    + rewrite !Z.max_r by lia. nia.
Qed.

(** ** Intensity aggregator *)

(** X8. The aggregator never returns a partial answer. When it returns, the
    four means are all absent (exactly when the mask has no true pixel), or
    the gray mean alone is present (exactly for the single-channel modes), or
    all four are present. *)
Theorem compute_intensities_cases (img : image) (m : mask)
    (mean_gray_ mean_r_ mean_g_ mean_b_ : option float) :
  _compute_intensities img m = Ok (mean_gray_, mean_r_, mean_g_, mean_b_) →
  ((∀ r c, pixel m r c = false)
   ∧ mean_gray_ = None ∧ mean_r_ = None ∧ mean_g_ = None ∧ mean_b_ = None)
  ∨ ((∃ r c, pixel m r c = true) ∧ is_Some mean_gray_
     ∧ ((image_mode img ∈ single_channel_modes
         ∧ mean_r_ = None ∧ mean_g_ = None ∧ mean_b_ = None)
        ∨ ((image_mode img ∉ single_channel_modes)
           ∧ is_Some mean_r_ ∧ is_Some mean_g_ ∧ is_Some mean_b_))).
Proof.
  unfold _compute_intensities. intros Hrun.
  destruct (no_true_pixel_dec m) as [Hnone|Hsome].
  - left. rewrite np_sum_no_true in Hrun by done. simpl in Hrun.
    by injection Hrun as <- <- <- <-.
  - right. split; [done|].
    pose proof (np_sum_some_true m Hsome) as Hsum.
    destruct (np_sum m =? 0) eqn:E; [by apply Z.eqb_eq in E|].
    rewrite np_sum_any in Hrun by done.
    destruct (gray_band img) as [gray|]; cbn [mbind result_bind] in Hrun;
      [|done].
    destruct (masked_mean gray m) as [g|]; cbn [mbind result_bind] in Hrun;
      [|done].
    destruct (existsb (String.eqb (image_mode img)) single_channel_modes)
      eqn:Emode.
    + injection Hrun as <- <- <- <-. split; [by eexists|]. left.
      apply existsb_exists in Emode as (mode & Hin & ->%String.eqb_eq).
      split; [by apply list_elem_of_In|done].
    + destruct (rgb_bands img) as [[[r_np g_np] b_np]|];
        cbn [mbind result_bind] in Hrun; [|done].
      destruct (masked_mean r_np m); cbn [mbind result_bind] in Hrun; [|done].
      destruct (masked_mean g_np m); cbn [mbind result_bind] in Hrun; [|done].
      destruct (masked_mean b_np m); cbn [mbind result_bind] in Hrun; [|done].
      injection Hrun as <- <- <- <-. split; [by eexists|]. right.
      split; [|by repeat split; eexists].
      intros Hin%list_elem_of_In.
      assert (existsb (String.eqb (image_mode img)) single_channel_modes = true)
        as Hex; [|by rewrite Hex in Emode].
      apply existsb_exists. exists (image_mode img).
      split; [done|apply String.eqb_refl].
Qed.

(** ** Image reference and label-config lookup *)

Lemma dict_get_in (d : list (string * pyval)) (k : string) :
  existsb (String.eqb k) (map fst d) = true → dict_get d k ∈ map snd d.
Proof.
  induction d as [|[k' v] d IH]; simpl; [done|].
  rewrite String.eqb_sym. destruct (String.eqb k' k); simpl.
  - intros _. apply elem_of_cons. by left.
  - intros Hin. apply elem_of_cons. right. by apply IH.
Qed.

(** X9. The image reference of a result always comes out of the task data:
    on a dict [image_url_for] raises nothing and returns one of the values
    of the dict, whatever the label config and the result's to_name say;
    on the empty dict it returns None. *)
Theorem image_url_from_data (d : list (string * pyval)) (to_name : pyval) :
  ∃ v,
    image_url_for (PDict d) to_name = Ok v
    ∧ match d with
      | [] => v = PNone
      | _ :: _ => v ∈ map snd d
      end.
Proof.
  unfold image_url_for.
  assert (Hl : ∀ key, ∃ v,
            lookup_image_url (PDict d) key = Ok v
            ∧ match d with [] => v = PNone | _ :: _ => v ∈ map snd d end).
  { intros key. eexists. split; [done|].
    destruct d as [|[k0 v0] d]; [by destruct key|].
    assert (default PNone (head (map snd ((k0, v0) :: d)))
            ∈ map snd ((k0, v0) :: d)) as Hfirst
      by (simpl; apply elem_of_cons; by left).
    destruct key as [k|]; [|done].
    destruct (existsb (String.eqb k) (map fst ((k0, v0) :: d))) eqn:E;
      [by apply dict_get_in|done]. }
  destruct (_get_object_value_key_for_result to_name) as [key|];
    [destruct (String.eqb key "")|];
    cbn [first_key mbind result_bind]; apply Hl.
Qed.

(** X10. The label-config lookup returns None exactly when the parsed
    config has no object tag of type Image; with such a tag named as the
    result's to_name, it returns the value of the first one, its leading
    dollar sign dropped. *)
Theorem object_value_key_lookup (to_name : string) :
  (_get_object_value_key_for_result (PStr to_name) = None
   ↔ Forall (λ obj, input_type obj ≠ "Image") config_objects)
  ∧ (∀ before obj after,
       config_objects = before ++ obj :: after →
       input_type obj = "Image" → input_name obj = to_name →
       Forall (λ o, input_type o ≠ "Image" ∨ input_name o ≠ to_name) before →
       _get_object_value_key_for_result (PStr to_name)
       = Some (strip_dollar (default "" (input_value obj)))).
Proof.
  unfold _get_object_value_key_for_result. split.
  - destruct (find _ config_objects) as [obj|] eqn:Efirst.
    + split; [done|]. intros Hall.
      apply find_some in Efirst as [Hin Hobj].
      apply andb_prop in Hobj as [Htype%String.eqb_eq _].
      rewrite Forall_forall in Hall.
      exfalso. by apply (Hall obj); [apply list_elem_of_In|].
    + destruct (find (λ obj, String.eqb (input_type obj) "Image") config_objects)
        as [obj|] eqn:Eany.
      * split; [done|]. intros Hall.
        apply find_some in Eany as [Hin Htype%String.eqb_eq].
        rewrite Forall_forall in Hall.
        exfalso. by apply (Hall obj); [apply list_elem_of_In|].
      * split; [|done]. intros _. apply Forall_forall. intros obj Hin Htype.
        pose proof (find_none _ _ Eany obj ltac:(by apply list_elem_of_In))
          as Hnone.
        simpl in Hnone. by rewrite Htype in Hnone.
  - intros before obj after -> Htype Hname Hbefore.
    assert (find (λ o, String.eqb (input_type o) "Image"
                       && py_eq_str (PStr to_name) (input_name o))
              (before ++ obj :: after) = Some obj) as ->; [|done].
    induction Hbefore as [|o before Ho _ IH]; simpl.
    + by rewrite Htype, Hname, !String.eqb_refl.
    + replace (String.eqb (input_type o) "Image"
               && String.eqb to_name (input_name o)) with false; [done|].
      symmetry. apply andb_false_iff.
      destruct Ho as [Ho|Ho]; [left|right]; apply String.eqb_neq; congruence.
Qed.

(** ** Archive file names *)

Lemma replace_char_absent (a b : ascii) (s : string) :
  a ≠ b → a ∉ list_ascii_of_string (replace_char a b s).
Proof.
  intros Hab. induction s as [|c s IH]; simpl; [by intros ?%elem_of_nil|].
  intros [Heq|Hin]%elem_of_cons; [|done].
  destruct (Ascii.eqb c a) eqn:E; [congruence|].
  apply Ascii.eqb_neq in E. congruence.
Qed.

Lemma replace_char_keeps_absent (a b c : ascii) (s : string) :
  c ≠ b → c ∉ list_ascii_of_string s →
  c ∉ list_ascii_of_string (replace_char a b s).
Proof.
  intros Hcb. induction s as [|x s IH]; simpl; [done|].
  intros Hnin [Heq|Hin]%elem_of_cons.
  - destruct (Ascii.eqb x a); [congruence|].
    apply Hnin, elem_of_cons. by left.
  - apply IH; [|done]. intros Hin'. apply Hnin, elem_of_cons. by right.
Qed.

Lemma list_ascii_of_string_app (s t : string) :
  list_ascii_of_string (s +:+ t)
  = list_ascii_of_string s ++ list_ascii_of_string t.
Proof. induction s as [|c s IH]; simpl; [done|by rewrite IH]. Qed.

(** X11. The name of a CSV file never holds a path separator: neither a
    slash nor a backslash survives the sanitising of the group key, so the
    file lands in the temporary directory itself. *)
Theorem csv_name_no_separator (key : string) :
  (("/" : ascii) ∉ list_ascii_of_string (csv_name key))
  ∧ (("092" : ascii) ∉ list_ascii_of_string (csv_name key)).
Proof.
  set (safe := replace_char "092" "_" (replace_char "/" "_" key)).
  assert (Hslash : ("/" : ascii) ∉ list_ascii_of_string safe).
  { apply replace_char_keeps_absent; [done|]. by apply replace_char_absent. }
  assert (Hback : ("092" : ascii) ∉ list_ascii_of_string safe)
    by (by apply replace_char_absent).
  unfold csv_name. fold safe.
  destruct (str_endswith _ _); [done|].
  rewrite list_ascii_of_string_app. split.
  - intros [Hin|Hin]%elem_of_app; [done|]. simpl in Hin.
    repeat (apply elem_of_cons in Hin as [Hin|Hin]; [discriminate|]).
    by apply elem_of_nil in Hin.
  - intros [Hin|Hin]%elem_of_app; [done|]. simpl in Hin.
    repeat (apply elem_of_cons in Hin as [Hin|Hin]; [discriminate|]).
    by apply elem_of_nil in Hin.
Qed.

(** ** The table of rows *)

#[local] Arguments resolve_region : simpl never.
#[local] Arguments region_means : simpl never.
#[local] Arguments make_row : simpl never.
#[local] Arguments group_key : simpl never.
#[local] Arguments rows_append : simpl never.

Lemma make_row_origin task_id_ ann_id ctx label_ shape_type_ box ms poly :
  let r := make_row task_id_ ann_id ctx label_ shape_type_ box ms poly in
  image_filename r = filename (ctx_source ctx)
  ∧ task_id r = task_id_ ∧ annotation_id r = ann_id
  ∧ shape_type r = shape_type_
  ∧ polygon_points_px r
    = match poly with [] => "" | _ => json_dumps_points poly end.
Proof.
  destruct box as [[[[bx by_] w] h] area], ms as [[[mg mr] mgr] mb].
  by cbv [make_row].
Qed.

Lemma region_shape_kinds is_mask is_polygon value width height m shp own poly :
  region_shape is_mask is_polygon value width height
  = Ok (Some (m, shp, own, poly)) →
  (shp = "mask" ∧ poly = []) ∨ shp = "polygon".
Proof.
  unfold region_shape. intros Hrun.
  destruct is_mask.
  - destruct (py_get value "rle") as [r|]; cbn [mbind result_bind] in Hrun;
      [|done].
    destruct (py_iter _ ≫= _) as [m'|]; [|done].
    destruct (_first_label_from_result_value value "brushlabels");
      cbn [mbind result_bind] in Hrun; [|done].
    injection Hrun as <- <- <- <-. by left.
  - destruct is_polygon; [|done].
    destruct (py_get value "points") as [pts|];
      cbn [mbind result_bind] in Hrun; [|done].
    destruct (_polygon_points_percent_to_px _ _ _) as [px|];
      cbn [mbind result_bind] in Hrun; [|done].
    destruct (_rasterize_polygon _ _ _) as [m'|];
      cbn [mbind result_bind] in Hrun; [|done].
    destruct (_first_label_from_result_value value "polygonlabels");
      cbn [mbind result_bind] in Hrun; [|done].
    injection Hrun as <- <- <- <-. by right.
Qed.

(** One pass through the loop body adds at most one row, in the group the
    row names, for the task and the annotation at hand *)
Lemma process_result_row download_resources hostname task_id_ ann_id data
    lbl ta oid st res st' :
  process_result download_resources hostname task_id_ ann_id data lbl ta oid
    st res = Ok st' →
  rows_by_image st' = rows_by_image st
  ∨ ∃ r,
      rows_by_image st' = rows_append (rows_by_image st) (row_key r) r
      ∧ task_id r = task_id_ ∧ annotation_id r = ann_id
      ∧ row_shape_ok r.
Proof.
  unfold process_result. intros Hrun.
  destruct (resolve_region _ _ _ _ _ _) as [[tr [ctx|]]|];
    cbn [mbind result_bind] in Hrun; [| |done].
  2:{ injection Hrun as <-. by left. }
  unfold emit_region in Hrun.
  destruct (decide (_ ∈ _)); [injection Hrun as <-; by left|].
  destruct (region_shape _ _ _ _ _) as [[[[[m shp] own] poly]|]|] eqn:Eshape;
    cbn [mbind result_bind] in Hrun; [| |done].
  2:{ injection Hrun as <-. by left. }
  destruct (region_means _ _ _ _ _) as [ms evs].
  injection Hrun as <-. right. cbn [rows_by_image].
  destruct (make_row_origin task_id_ ann_id ctx
              (resolve_label own lbl (py_str (ctx_region_id ctx))) shp
              (_compute_bbox_and_area m) ms poly)
    as (Hfile & Htask & Hann & Hshp & Hpoly).
  eexists. split; [|split; [exact Htask|split; [exact Hann|]]].
  - unfold row_key. rewrite Hfile, Htask. done.
  - unfold row_shape_ok. rewrite Hshp, Hpoly.
    apply region_shape_kinds in Eshape as [ [-> ->] | -> ]; [by left|by right].
Qed.

Lemma append_rows_app rbi new1 new2 :
  append_rows rbi (new1 ++ new2) = append_rows (append_rows rbi new1) new2.
Proof. unfold append_rows. apply foldl_app. Qed.

Lemma results_loop_appends download_resources hostname task_id_ ann_id data
    lbl ta ti ai (results : list pyval) :
  ∀ ri st st',
    results_loop download_resources hostname task_id_ ann_id data lbl ta
      ti ai ri results st = Ok st' →
    ∃ new,
      rows_by_image st' = append_rows (rows_by_image st) new
      ∧ Forall row_shape_ok new.
Proof.
  induction results as [|res rest IH]; intros ri st st' Hrun; simpl in Hrun.
  - injection Hrun as <-. by exists [].
  - destruct (process_result _ _ _ _ _ _ _ _ _ _) as [st1|] eqn:Estep;
      cbn [mbind result_bind] in Hrun; [|done].
    apply IH in Hrun as (new & Hrows & Hok).
    apply process_result_row in Estep as [Hsame|(r & Hadd & _ & _ & Hr)].
    + exists new. by rewrite <- Hsame.
    + exists (r :: new). split; [|by constructor].
      rewrite Hrows, Hadd. done.
Qed.

Lemma annotations_loop_appends download_resources hostname task_id_ data ti
    (annotations : list pyval) :
  ∀ ai (st st' : export_state),
    annotations_loop download_resources hostname task_id_ data ti ai
      annotations st = Ok st' →
    ∃ new, st'.1 = append_rows st.1 new ∧ Forall row_shape_ok new.
Proof.
  induction annotations as [|ann rest IH]; intros ai st st' Hrun;
    simpl in Hrun.
  - injection Hrun as <-. by exists [].
  - destruct (process_annotation _ _ _ _ _ _ _ _) as [st1|] eqn:Estep;
      cbn [mbind result_bind] in Hrun; [|done].
    apply IH in Hrun as (new2 & Hrows2 & Hok2).
    unfold process_annotation in Estep.
    destruct (py_get ann "id") as [ann_id|]; cbn [mbind result_bind] in Estep;
      [|done].
    destruct (py_get ann "result") as [r|]; cbn [mbind result_bind] in Estep;
      [|done].
    destruct (py_iter _) as [results|]; cbn [mbind result_bind] in Estep;
      [|done].
    destruct (prescan results _) as [[lbl ta]|];
      cbn [mbind result_bind] in Estep; [|done].
    destruct (results_loop _ _ _ _ _ _ _ _ _ _ _ _) as [st2|] eqn:Eloop;
      cbn [mbind result_bind] in Estep; [|done].
    injection Estep as <-.
    apply results_loop_appends in Eloop as (new1 & Hrows1 & Hok1).
    exists (new1 ++ new2). split; [|by apply Forall_app].
    rewrite append_rows_app, Hrows2. simpl. by rewrite Hrows1.
Qed.

(** Everything the loop over the tasks does to the table is appending rows,
    each to the group it names *)
Lemma tasks_loop_appends download_resources hostname (tasks : list pyval) :
  ∀ ti (st st' : export_state),
    tasks_loop download_resources hostname ti tasks st = Ok st' →
    ∃ new, st'.1 = append_rows st.1 new ∧ Forall row_shape_ok new.
Proof.
  induction tasks as [|task rest IH]; intros ti st st' Hrun; simpl in Hrun.
  - injection Hrun as <-. by exists [].
  - destruct (process_task _ _ _ _ _) as [st1|] eqn:Estep;
      cbn [mbind result_bind] in Hrun; [|done].
    apply IH in Hrun as (new2 & Hrows2 & Hok2).
    unfold process_task in Estep.
    destruct (py_get task "id") as [tid|]; cbn [mbind result_bind] in Estep;
      [|done].
    destruct (py_get task "data") as [d|]; cbn [mbind result_bind] in Estep;
      [|done].
    destruct (py_get task "annotations") as [a|];
      cbn [mbind result_bind] in Estep; [|done].
    destruct (py_iter _) as [annotations|]; cbn [mbind result_bind] in Estep;
      [|done].
    apply annotations_loop_appends in Estep as (new1 & Hrows1 & Hok1).
    exists (new1 ++ new2). split; [|by apply Forall_app].
    by rewrite append_rows_app, Hrows2, Hrows1.
Qed.

Lemma rows_append_cons k rows rest key r :
  rows_append ((k, rows) :: rest) key r
  = if String.eqb k key then (k, rows ++ [r]) :: rest
    else (k, rows) :: rows_append rest key r.
Proof. reflexivity. Qed.

Lemma rows_append_keys rbi key r x :
  x ∈ (rows_append rbi key r).*1 → x ∈ rbi.*1 ∨ x = key.
Proof.
  induction rbi as [|[k rows] rest IH].
  - intros Hin. apply list_elem_of_singleton in Hin. by right.
  - rewrite rows_append_cons. destruct (String.eqb k key); [by left|].
    rewrite !fmap_cons, !elem_of_cons. intros [->|Hin]; [by left; left|].
    destruct (IH Hin) as [?|?]; [left; by right|by right].
Qed.

Lemma rows_append_ok rbi r :
  row_shape_ok r → table_ok rbi → table_ok (rows_append rbi (row_key r) r).
Proof.
  intros Hr. induction rbi as [|[k rows] rest IH]; intros [Hnd Hall].
  - split; [apply NoDup_singleton|].
    constructor; [|constructor]. split; [done|]. by constructor.
  - rewrite rows_append_cons.
    apply NoDup_cons in Hnd as [Hk Hnd].
    apply Forall_cons in Hall as [[Hne Hrows] Hall].
    destruct (String.eqb k (row_key r)) eqn:Ek.
    + apply String.eqb_eq in Ek. split; [by apply NoDup_cons|].
      constructor; [|done]. split; [by destruct rows|].
      apply Forall_app. split; [done|]. by constructor.
    + apply String.eqb_neq in Ek.
      destruct (IH (conj Hnd Hall)) as [Hnd' Hall'].
      split; [|by constructor].
      rewrite fmap_cons. apply NoDup_cons. split; [|done].
      intros Hin. apply rows_append_keys in Hin as [?|?]; [done|].
      by apply Ek.
Qed.

Lemma append_rows_ok new :
  ∀ rbi, Forall row_shape_ok new → table_ok rbi →
         table_ok (append_rows rbi new).
Proof.
  induction new as [|r new IH]; intros rbi Hnew Hok; [done|].
  apply Forall_cons in Hnew as [Hr Hnew].
  apply (IH _ Hnew), rows_append_ok; done.
Qed.

Lemma table_ok_nil : table_ok [].
Proof. split; [apply NoDup_nil_2|constructor]. Qed.

(** X12. Whatever the tasks, the table the export loop ends with has
    pairwise distinct keys and no empty group; every row sits under the key
    made of its own image file name and task id, and is a mask row without
    polygon points or a polygon row. *)
Theorem table_groups_well_formed download_resources hostname tasks rbi tr :
  tasks_loop download_resources hostname 0 tasks ([], []) = Ok (rbi, tr) →
  NoDup rbi.*1
  ∧ Forall (λ kv : string * list row,
              kv.2 ≠ []
              ∧ Forall (λ r, image_filename r +:+ "__task_"
                               +:+ py_str (task_id r) = kv.1
                             ∧ ((shape_type r = "mask"
                                 ∧ polygon_points_px r = "")
                                ∨ shape_type r = "polygon")) kv.2) rbi.
Proof.
  intros Hrun.
  apply tasks_loop_appends in Hrun as (new & Hrows & Hnew).
  simpl in Hrows. subst rbi.
  exact (append_rows_ok new [] Hnew table_ok_nil).
Qed.

Lemma rows_append_lookup rbi key r :
  ∀ i k rows,
    rbi !! i = Some (k, rows) →
    ∃ more, rows_append rbi key r !! i = Some (k, rows ++ more).
Proof.
  induction rbi as [|[k0 rows0] rest IH]; intros i k rows Hi; [done|].
  rewrite rows_append_cons.
  destruct (String.eqb k0 key), i as [|i]; simpl in *.
  - injection Hi as <- <-. by exists [r].
  - exists []. by rewrite app_nil_r.
  - injection Hi as <- <-. exists []. by rewrite app_nil_r.
  - by apply IH.
Qed.

Lemma append_rows_lookup new :
  ∀ rbi i k rows,
    rbi !! i = Some (k, rows) →
    ∃ more, append_rows rbi new !! i = Some (k, rows ++ more).
Proof.
  induction new as [|r new IH]; intros rbi i k rows Hi.
  - exists []. by rewrite app_nil_r.
  - apply (rows_append_lookup _ (row_key r) r) in Hi as (more1 & Hi).
    apply IH in Hi as (more2 & Hi).
    exists (more1 ++ more2). by rewrite app_assoc.
Qed.

(** X13. The loop over the tasks only ever appends: a group of the table
    keeps its position and its key, and its rows stay, in order, at the
    front of the group. *)
Theorem table_append_only download_resources hostname ti tasks rbi tr rbi'
    tr' :
  tasks_loop download_resources hostname ti tasks (rbi, tr) = Ok (rbi', tr') →
  ∀ i key rows,
    rbi !! i = Some (key, rows) →
    ∃ more, rbi' !! i = Some (key, rows ++ more).
Proof.
  intros Hrun i key rows Hi.
  apply tasks_loop_appends in Hrun as (new & Hrows & _).
  simpl in Hrows. subst rbi'. by apply append_rows_lookup.
Qed.



Lemma tasks_loop_no_annotations download_resources hostname tasks :
  Forall (λ task, ∃ d, task = PDict d
                       ∧ py_truthy (dict_get d "annotations") = false) tasks →
  ∀ ti st, tasks_loop download_resources hostname ti tasks st = Ok st.
Proof.
  induction 1 as [|task rest (d & -> & Hann) _ IH]; intros ti st; [done|].
  simpl. unfold process_task. cbn [py_get mbind result_bind].
  unfold py_or at 2. rewrite Hann. simpl. apply IH.
Qed.

(** X15. Tasks that are dicts without annotations (no such key, None or an
    empty list) are exported without error, and the archive holds the note
    README.txt only. *)
Theorem export_without_annotations download_resources hostname tasks :
  Forall (λ task, ∃ d, task = PDict d
                       ∧ py_truthy (dict_get d "annotations") = false) tasks →
  export_segmentation_metrics tasks download_resources hostname
  = Ok ({["README.txt" := TextFile readme_text]},
        "application/zip",
        "project-" +:+ string_of_Z project_id +:+ "-segmentation.csv.zip").
Proof.
  intros Htasks. unfold export_segmentation_metrics.
  by rewrite (tasks_loop_no_annotations _ _ _ Htasks).
Qed.





(** ** Polygon regions *)

Lemma points_loop_spec (items : list pyval) (width height : Z) :
  ∀ px,
    points_percent_to_px_loop items width height = Ok px
    ↔ Forall2 (λ p xy, ∃ a b, py_unpack2 p = Ok (a, b)
                              ∧ percent_to_px a width = Ok xy.1
                              ∧ percent_to_px b height = Ok xy.2) items px.
Proof.
  induction items as [|p rest IH]; intros px; simpl.
  - split; [intros [= <-]; constructor|by intros ->%Forall2_nil_inv_l].
  - split.
    + intros Hrun.
      destruct (py_unpack2 p) as [[a b]|] eqn:Eu;
        cbn [mbind result_bind] in Hrun; [|done].
      destruct (percent_to_px a width) as [x|] eqn:Ex;
        cbn [mbind result_bind] in Hrun; [|done].
      destruct (percent_to_px b height) as [y|] eqn:Ey;
        cbn [mbind result_bind] in Hrun; [|done].
      destruct (points_percent_to_px_loop rest width height) as [px'|] eqn:Er;
        cbn [mbind result_bind] in Hrun; [|done].
      injection Hrun as <-. constructor; [|by apply IH].
      by exists a, b.
    + intros (xy & px' & (a & b & -> & Hx & Hy) & Hrest & ->)%Forall2_cons_inv_l.
      cbn [mbind result_bind]. rewrite Hx. cbn [mbind result_bind].
      rewrite Hy. cbn [mbind result_bind].
      apply IH in Hrest as ->. by destruct xy.
Qed.

(** X18. The conversion of polygon vertices succeeds exactly when the
    points can be iterated, every vertex unpacks into two coordinates and
    each coordinate converts; the result then holds one pixel vertex per
    input vertex, in the same order, x scaled by the width and y by the
    height. *)
Theorem polygon_points_conversion (points : pyval) (width height : Z)
    (px : list (float * float)) :
  _polygon_points_percent_to_px points width height = Ok px
  ↔ ∃ items,
      py_iter points = Ok items
      ∧ Forall2 (λ p xy, ∃ a b, py_unpack2 p = Ok (a, b)
                                ∧ percent_to_px a width = Ok xy.1
                                ∧ percent_to_px b height = Ok xy.2) items px.
Proof.
  unfold _polygon_points_percent_to_px. split.
  - intros Hrun.
    destruct (py_iter points) as [items|]; cbn [mbind result_bind] in Hrun;
      [|done].
    exists items. split; [done|]. by apply points_loop_spec.
  - intros (items & -> & Hall). cbn [mbind result_bind].
    by apply points_loop_spec.
Qed.

Lemma points_loop_bad_vertex (items : list pyval) (width height : Z) p e0 :
  p ∈ items → py_unpack2 p = Raise e0 →
  ∃ e, points_percent_to_px_loop items width height = Raise e.
Proof.
  intros Hin Hbad. induction items as [|q rest IH].
  - by apply elem_of_nil in Hin.
  - simpl. apply elem_of_cons in Hin as [<-|Hin].
    + rewrite Hbad. by eexists.
    + destruct (py_unpack2 q) as [[a b]|]; cbn [mbind result_bind];
        [|by eexists].
      destruct (percent_to_px a width); cbn [mbind result_bind];
        [|by eexists].
      destruct (percent_to_px b height); cbn [mbind result_bind];
        [|by eexists].
      destruct (IH Hin) as [e ->]. by eexists.
Qed.

(** X19. A polygon region with a vertex that does not unpack into two
    coordinates, wherever it stands among the points, is not skipped: the
    pass over the result raises, and no row is written for it. *)
Theorem polygon_vertex_not_pair_raises :
  ∀ download_resources hostname task_id_ ann_id data lbl ta oid st res
    tr ctx items p e0,
    resolve_region download_resources hostname data oid (trace st) res
    = Ok (tr, Some ctx) →
    ctx_is_mask ctx = false → ctx_is_polygon ctx = true →
    py_get (ctx_value ctx) "points" = Ok (PList items) →
    p ∈ items → py_unpack2 p = Raise e0 →
    py_str (ctx_region_id ctx) ∉ processed_region_ids st →
    ∃ e,
      process_result download_resources hostname task_id_ ann_id data lbl ta
        oid st res = Raise e.
Proof.
  intros dl hostname task_id_ ann_id data lbl ta oid st res tr ctx items p e0
    Hctx Hmask Hpoly Hpts Hin Hbad Hfresh.
  unfold process_result. rewrite Hctx. cbn [mbind result_bind].
  unfold emit_region. rewrite decide_False by done.
  unfold region_shape. rewrite Hmask, Hpoly, Hpts. cbn [mbind result_bind].
  assert (Hor : py_or (PList items) (PList []) = PList items).
  { destruct items; [by apply elem_of_nil in Hin|done]. }
  rewrite Hor. unfold _polygon_points_percent_to_px.
  cbn [py_iter mbind result_bind].
  destruct (points_loop_bad_vertex items (ctx_width ctx) (ctx_height ctx)
              p e0 Hin Hbad) as [e ->].
  by exists e.
Qed.



(** ** Regions whose pixels cannot be read *)


(** ** The first pass over the results *)

Lemma prescan_result_dict lbl ta (d : list (string * pyval)) :
  py_truthy (dict_get d "value") = false
  ∨ (∃ dv, dict_get d "value" = PDict dv) →
  ∃ lbl' ta',
    prescan_result (lbl, ta) (PDict d) = Ok (lbl', ta')
    ∧ (lbl' = lbl ∨ (dict_get d "id" ≠ PNone
                     ∧ ∃ l, lbl' = <[py_str (dict_get d "id") := l]> lbl))
    ∧ (ta' = ta ∨ (dict_get d "id" ≠ PNone
                   ∧ ∃ f, ta' = <[py_str (dict_get d "id") := f]> ta)).
Proof.
  intros Hvalue.
  assert (Hdv : ∃ dv, py_or (dict_get d "value") (PDict []) = PDict dv).
  { unfold py_or. destruct Hvalue as [->|[dv Hdv]]; [by eexists|].
    rewrite Hdv. destruct dv; by eexists. }
  destruct Hdv as [dv Hdv].
  unfold prescan_result. cbn [py_get mbind result_bind]. rewrite Hdv.
  destruct (dict_get d "id") eqn:Eid; [by eexists _, _; eauto|..];
    (cbn [py_get mbind result_bind];
     destruct (prescan_label_dict dv) as [lb Hlb];
     cbn [py_get mbind result_bind] in Hlb; rewrite Hlb;
     cbn [mbind result_bind];
     match goal with
     | |- context [<[?k := _]> lbl] =>
         assert (Hl : ∃ lbl',
                   match lb with
                   | Some l => if String.eqb l "" then lbl else <[k := l]> lbl
                   | None => lbl
                   end = lbl'
                   ∧ (lbl' = lbl ∨ ∃ l, lbl' = <[k := l]> lbl))
           by (destruct lb as [lab|]; [destruct (String.eqb lab "")|]; eauto);
         destruct Hl as (lbl' & -> & Hl)
     end;
     destruct (py_eq_str (dict_get d "type") "textarea");
       [|eexists _, _; split; [done|]; split; [|by left];
         destruct Hl as [?|?]; [by left|by right]];
     destruct (py_or (dict_get dv "text") (PList [])) as [| | | | |[|t0 ?]|];
       try (eexists _, _; split; [done|]; split; [|by left];
            destruct Hl as [?|?]; [by left|by right]);
     destruct (float_of_str (str_strip (py_str t0)));
       eexists _, _; (split; [done|]); (split;
         [destruct Hl as [?|?]; [by left|by right]|]);
       [right; split; [done|by eexists]|by left]).
Qed.

(** X22. On results that are dicts whose value is a dict (or is missing,
    null or empty) the first pass raises nothing; it keeps every key of the
    two maps it builds, and a key it adds is the text of the id of one of
    the results. *)
Theorem prescan_never_raises (results : list pyval) :
  Forall (λ res, ∃ d, res = PDict d
                      ∧ (py_truthy (dict_get d "value") = false
                         ∨ ∃ dv, dict_get d "value" = PDict dv)) results →
  ∀ lbl ta,
    ∃ lbl' ta',
      prescan results (lbl, ta) = Ok (lbl', ta')
      ∧ dom lbl ⊆ dom lbl' ∧ dom ta ⊆ dom ta'
      ∧ ∀ k, k ∈ dom lbl' ∪ dom ta' →
             k ∈ dom lbl ∪ dom ta
             ∨ ∃ res rid, res ∈ results ∧ py_get res "id" = Ok rid
                          ∧ rid ≠ PNone ∧ k = py_str rid.
Proof.
  induction 1 as [|res rest (d & -> & Hvalue) _ IH]; intros lbl ta.
  - exists lbl, ta. split; [done|]. split; [done|]. split; [done|].
    intros k Hk. by left.
  - destruct (prescan_result_dict lbl ta d Hvalue)
      as (lbl1 & ta1 & Hstep & Hlbl & Hta).
    destruct (IH lbl1 ta1) as (lbl' & ta' & Hrest & Hdl & Hdt & Hnew).
    exists lbl', ta'. cbn [prescan]. rewrite Hstep. cbn [mbind result_bind].
    split; [done|].
    assert (Hl1 : dom lbl ⊆ dom lbl1).
    { destruct Hlbl as [->|(_ & l & ->)]; [done|]. apply dom_insert_subseteq. }
    assert (Ht1 : dom ta ⊆ dom ta1).
    { destruct Hta as [->|(_ & f & ->)]; [done|]. apply dom_insert_subseteq. }
    split; [by etrans|]. split; [by etrans|].
    intros k Hk. destruct (Hnew k Hk) as [Hold|(res & rid & Hin & Hid & Hne & ->)].
    + assert (Hcase : k ∈ dom lbl ∪ dom ta
                      ∨ (dict_get d "id" ≠ PNone
                         ∧ k = py_str (dict_get d "id"))).
      { apply elem_of_union in Hold as [Hold|Hold].
        - destruct Hlbl as [->|(Hne & l & ->)];
            [left; apply elem_of_union; by left|].
          rewrite dom_insert in Hold.
          apply elem_of_union in Hold as [->%elem_of_singleton|Hold];
            [by right|left; apply elem_of_union; by left].
        - destruct Hta as [->|(Hne & f & ->)];
            [left; apply elem_of_union; by right|].
          rewrite dom_insert in Hold.
          apply elem_of_union in Hold as [->%elem_of_singleton|Hold];
            [by right|left; apply elem_of_union; by right]. }
      destruct Hcase as [?|[Hne ->]]; [by left|].
      right. exists (PDict d), (dict_get d "id").
      split; [apply elem_of_cons; by left|done].
    + right. exists res, rid. split; [apply elem_of_cons; by right|done].
Qed.

End Coverage.

(** * Properties of the image sources *)

Section ResolverProperties.
Context `{Resolver.Host}.
Import Resolver.

Lemma contains_char_spec (c : ascii) (s : string) :
  contains_char c s = true ↔ c ∈ list_ascii_of_string s.
Proof.
  induction s as [|a s IH]; simpl.
  - split; [done|]. intros Hin. by apply elem_of_nil in Hin.
  - rewrite orb_true_iff, elem_of_cons, IH, Ascii.eqb_eq.
    split; (intros [?|?]; [by left|by right]).
Qed.

Lemma contains_char_absent (c : ascii) (s : string) :
  contains_char c s = false → c ∉ list_ascii_of_string s.
Proof.
  intros Hno Hin. apply contains_char_spec in Hin. by rewrite Hin in Hno.
Qed.

Lemma basename_no_slash (p : string) : contains_char "/" (basename p) = false.
Proof.
  induction p as [|a p IH]; [done|].
  cbn [basename]. by destruct (contains_char "/" (String a p)) eqn:E.
Qed.

Lemma basename_keeps_absent (c : ascii) (p : string) :
  contains_char c p = false → contains_char c (basename p) = false.
Proof.
  induction p as [|a p IH]; [done|]. intros Hno.
  cbn [basename]. destruct (contains_char "/" (String a p)); [|done].
  apply IH. simpl in Hno. by apply orb_false_iff in Hno as [_ ?].
Qed.

Lemma before_char_absent (c : ascii) (s : string) :
  contains_char c (before_char c s) = false.
Proof.
  induction s as [|a s IH]; [done|]. simpl.
  destruct (Ascii.eqb a c) eqn:E; [done|]. simpl. by rewrite E.
Qed.

Lemma filename_from_url_facts (u : string) :
  _best_effort_filename_from_url u ≠ ""
  ∧ contains_char "/" (_best_effort_filename_from_url u) = false
  ∧ contains_char "?" (_best_effort_filename_from_url u) = false.
Proof.
  unfold _best_effort_filename_from_url.
  destruct (String.eqb (basename (before_char "?" u)) "") eqn:E.
  - done.
  - apply String.eqb_neq in E. split; [done|].
    split; [apply basename_no_slash|].
    apply basename_keeps_absent, before_char_absent.
Qed.

(** X23. The file name guessed from a url is never empty and holds neither
    a slash nor a question mark. *)
Theorem filename_from_url_clean (u : string) :
  _best_effort_filename_from_url u ≠ ""
  ∧ (("/" : ascii) ∉ list_ascii_of_string (_best_effort_filename_from_url u))
  ∧ (("?" : ascii) ∉ list_ascii_of_string (_best_effort_filename_from_url u)).
Proof.
  destruct (filename_from_url_facts u) as (Hne & Hslash & Hquery).
  split; [done|]. split; by apply contains_char_absent.
Qed.

(** X24. Whatever the image reference, the download flag and the host name,
    the file name of the resolved source holds no slash; and a source
    without a local path has a non-empty file name without question mark. *)
Theorem resolved_filename_no_slash (image_url : string)
    (download_resources : bool) (hostname : option string) :
  let source := _resolve_image_source image_url download_resources hostname in
  (("/" : ascii) ∉ list_ascii_of_string (filename source))
  ∧ (path source = None →
     filename source ≠ ""
     ∧ ("?" : ascii) ∉ list_ascii_of_string (filename source)).
Proof.
  unfold _resolve_image_source.
  pose proof basename_no_slash as Hbase.
  pose proof filename_from_url_facts as Hguess.
  repeat match goal with
         | |- context [if ?b then _ else _] => destruct b
         | |- context [match ?o with Some _ => _ | None => _ end] =>
             destruct o
         end;
    cbn [filename path];
    (split; [apply contains_char_absent; first [apply Hbase|apply Hguess]|]);
    intros Hpath; try discriminate;
    (split; [apply Hguess|apply contains_char_absent, Hguess]).
Qed.

Lemma path_join2_cases (a b : string) :
  (isabs b = true ∧ path_join2 a b = b)
  ∨ (isabs b = false
     ∧ ∃ sep, path_join2 a b = a +:+ sep +:+ b ∧ (sep = "" ∨ sep = "/")).
Proof.
  unfold path_join2, isabs. destruct (String.prefix "/" b); [by left|].
  right. split; [done|].
  destruct (String.eqb a "" || str_endswith a "/").
  - exists "". split; [done|by left].
  - exists "/". split; [done|by right].
Qed.

(** X25. An upload reference keeps its url and gets a local path: the
    remainder of the reference itself when that remainder is an absolute
    path, whatever the media root is, and otherwise the remainder joined,
    with one slash at most, to the upload directory under the media root. *)
Theorem upload_reference_path (image_url : string)
    (download_resources : bool) (hostname : option string) :
  String.prefix "upload://" image_url = true →
  let rel := drop_chars 9 image_url in
  let source := _resolve_image_source image_url download_resources hostname in
  url source = image_url
  ∧ (isabs rel = true → path source = Some rel)
  ∧ (isabs rel = false →
     ∃ sep, path source
            = Some (path_join2 MEDIA_ROOT UPLOAD_DIR +:+ sep +:+ rel)
            ∧ (sep = "" ∨ sep = "/")).
Proof.
  intros Hupload. unfold _resolve_image_source. rewrite Hupload.
  cbn [url path]. split; [done|].
  destruct (path_join2_cases (path_join2 MEDIA_ROOT UPLOAD_DIR)
              (drop_chars 9 image_url))
    as [[Habs ->]|(Hrel & sep & -> & Hsep)].
  - split; [done|]. intros Hno. by rewrite Hno in Habs.
  - split; [intros Habs; by rewrite Habs in Hrel|]. intros _. by exists sep.
Qed.

(** A membership in a list of at most one access *)
Ltac single_access Hin :=
  first [ by apply elem_of_nil in Hin
        | apply elem_of_cons in Hin as [Hin|Hin];
          [|by apply elem_of_nil in Hin] ].

(** The branches of [_open_image], one after the other *)
Ltac open_image_branches :=
  repeat match goal with
         | |- context [if ?b then _ else _] => destruct b eqn:?
         end;
  cbn [snd length]; (split; [lia|]);
  (split;
    [intros ? Hin; single_access Hin; try discriminate;
       injection Hin as ->; auto
    |intros ? ? Hin; single_access Hin; try discriminate;
       injection Hin as -> _;
       (split;
         [match goal with Hd : negb ?d = false |- _ => by destruct d end|]);
       (split; [done|]);
       intros ? Hp; try discriminate; injection Hp as <-; auto]).

(** X26. Opening a source opens at most one file or sends at most one
    request, never both: a file is opened only if it is the existing local
    path of the source or what follows file:// in its url, and a request is
    sent only if the download flag is set, to the url of the source, when
    the source has no existing local path. *)
Theorem open_image_accesses (source : ImageSource) (download_resources : bool) :
  (length (_open_image source download_resources).2 ≤ 1)%nat
  ∧ (∀ p, ReadFile p ∈ (_open_image source download_resources).2 →
          (path source = Some p ∧ path_exists p = true)
          ∨ (String.prefix "file://" (url source) = true
             ∧ p = drop_chars 7 (url source)))
  ∧ (∀ u headers,
       HttpGet u headers ∈ (_open_image source download_resources).2 →
       download_resources = true ∧ u = url source
       ∧ ∀ p, path source = Some p → p = "" ∨ path_exists p = false).
Proof.
  unfold _open_image.
  destruct (path source) as [p0|] eqn:Epath.
  - destruct (String.eqb p0 "") eqn:Eempty; cbn [negb andb].
    + apply String.eqb_eq in Eempty. open_image_branches.
    + destruct (path_exists p0) eqn:Eexists; open_image_branches.
  - open_image_branches.
Qed.

Lemma prefix_head (a : ascii) (p s : string) :
  String.prefix (String a p) s = true → ∃ s', s = String a s'.
Proof.
  destruct s as [|b s]; simpl; [done|].
  destruct (ascii_dec a b) as [->|]; [by eexists|done].
Qed.

Lemma unresolved_storage (image_url : string) :
  (∀ u, resolve_storage_uri image_url = Some u → u = "") →
  match resolve_storage_uri image_url with
  | Some u => if String.eqb u "" then None else Some u
  | None => None
  end = None.
Proof.
  intros Hnone. destruct (resolve_storage_uri image_url) as [u|]; [|done].
  by rewrite (Hnone u eq_refl).
Qed.

(** X27. An http or https reference the project storage does not resolve
    becomes a source with the same url and no local path; opening that
    source without the download flag gives no image, opens no file and
    sends no request, and with the flag the one access is a request to that
    url. *)
Theorem remote_source_needs_download (image_url : string)
    (download_resources : bool) (hostname : option string) :
  String.prefix "http://" image_url || String.prefix "https://" image_url
  = true →
  (∀ u, resolve_storage_uri image_url = Some u → u = "") →
  let source := _resolve_image_source image_url download_resources hostname in
  url source = image_url ∧ path source = None
  ∧ filename source = _best_effort_filename_from_url image_url
  ∧ _open_image source false = (None, [])
  ∧ ∃ headers, (_open_image source true).2 = [HttpGet image_url headers].
Proof.
  intros Hremote Hstorage.
  assert (Hh : ∃ s', image_url = String "h" s').
  { apply orb_true_iff in Hremote as [Hp|Hp]; by apply prefix_head in Hp. }
  destruct Hh as [s' Hh].
  assert (Hsource :
    _resolve_image_source image_url download_resources hostname
    = {| url := image_url; path := None;
         filename := _best_effort_filename_from_url image_url |}).
  { unfold _resolve_image_source. rewrite (unresolved_storage _ Hstorage).
    replace (String.prefix "upload://" image_url) with false
      by (by rewrite Hh).
    replace (isabs image_url) with false by (by rewrite Hh).
    replace (String.prefix "data:" image_url) with false by (by rewrite Hh).
    replace (String.prefix "file://" image_url) with false by (by rewrite Hh).
    by rewrite Hremote. }
  cbv zeta. rewrite Hsource. cbn [url path filename].
  split; [done|]. split; [done|]. split; [done|].
  unfold _open_image. cbn [url path].
  replace (String.prefix "data:" image_url) with false by (by rewrite Hh).
  replace (String.prefix "file://" image_url) with false by (by rewrite Hh).
  split; [done|]. by eexists.
Qed.

(** X28. A data URI the project storage does not resolve becomes a source
    named inline.png that keeps the URI as its url; opening it, with or
    without the download flag, opens no file and sends no request. *)
Theorem data_uri_stays_in_process (image_url : string)
    (download_resources allowed : bool) (hostname : option string) :
  String.prefix "data:" image_url = true →
  (∀ u, resolve_storage_uri image_url = Some u → u = "") →
  let source := _resolve_image_source image_url download_resources hostname in
  url source = image_url ∧ path source = None
  ∧ filename source = "inline.png"
  ∧ (_open_image source allowed).2 = [].
Proof.
  intros Hdata Hstorage.
  destruct (prefix_head _ _ _ Hdata) as [s' Hd].
  assert (Hsource :
    _resolve_image_source image_url download_resources hostname
    = {| url := image_url; path := None; filename := "inline.png" |}).
  { unfold _resolve_image_source. rewrite (unresolved_storage _ Hstorage).
    replace (String.prefix "upload://" image_url) with false
      by (by rewrite Hd).
    replace (isabs image_url) with false by (by rewrite Hd).
    by rewrite Hdata. }
  cbv zeta. rewrite Hsource. cbn [url path filename].
  split; [done|]. split; [done|]. split; [done|].
  unfold _open_image. cbn [url path]. by rewrite Hdata.
Qed.

End ResolverProperties.

(** * The further properties on concrete inputs *)

Lemma decode_shape_witness :
  0 ≤ 3 ∧ 0 ≤ 2
  ∧ length [[false; false; true]; [false; false; false]] = Z.to_nat 2
  ∧ Forall (λ row : list bool, length row = Z.to_nat 3)
      [[false; false; true]; [false; false; false]].
Proof.
  apply (@decode_shape Toy.python (PInt <$> [2; 1; 3]) 3 2).
  reflexivity.
Defined.

Lemma decode_ignores_tail_witness :
  @_decode_brush_rle_to_mask Toy.python
    ((PInt <$> [2; 1; 3]) ++ [PStr "x"; PNone]) 3 2
  = @_decode_brush_rle_to_mask Toy.python (PInt <$> [2; 1; 3]) 3 2.
Proof.
  apply (@decode_ignores_tail Toy.python [2; 1; 3] [PStr "x"; PNone] 3 2).
  unfold positive_total. simpl. lia.
Defined.

Lemma decode_rejects_reached_entry_witness :
  @_decode_brush_rle_to_mask Toy.python
    ((PInt <$> [2; 1]) ++ PStr "x" :: [PInt 3]) 3 2
  = Raise TypeError.
Proof.
  apply (@decode_rejects_reached_entry Toy.python [2; 1] (PStr "x") [PInt 3]
           3 2).
  - unfold positive_total. simpl. lia.
  - reflexivity.
Defined.

Lemma decode_encode_round_trip_witness :
  Forall (λ count, 0 ≤ count) (rle_encode (concat sample_mask))
  ∧ @_decode_brush_rle_to_mask Toy.python
      (PInt <$> rle_encode (concat sample_mask)) 3 2
    = Ok sample_mask.
Proof.
  apply (@decode_encode_round_trip Toy.python sample_mask 3 2);
    [lia|lia|reflexivity|].
  repeat constructor.
Defined.

Lemma negative_size_regions_witness :
  @region_shape Toy.python Toy.pillow true false
    (PDict [("rle", PList [])]) (-1) 2 = Ok None
  ∧ (@py_truthy Toy.python (dict_get [("rle", PList [])] "points") = false →
     @region_shape Toy.python Toy.pillow false true
       (PDict [("rle", PList [])]) (-1) 2 = Raise ValueError).
Proof.
  apply (@negative_size_regions Toy.python Toy.pillow
           [("rle", PList [])] false (-1) 2).
  left. lia.
Defined.

Lemma bbox_inside_image_witness :
  ∃ bbox_x bbox_y x_length y_length area,
    _compute_bbox_and_area sample_mask
    = (bbox_x, bbox_y, x_length, y_length, area)
    ∧ 0 ≤ bbox_x ∧ bbox_x + x_length < 3
    ∧ 0 ≤ bbox_y ∧ bbox_y + y_length < 2
    ∧ area ≤ 3 * 2.
Proof.
  apply (bbox_inside_image sample_mask 3 2); [lia|lia|reflexivity|].
  repeat constructor.
Defined.

Lemma compute_intensities_cases_witness :
  ((∀ r c, pixel [[true; false]; [false; true]] r c = false)
   ∧ Some (25 : @float Toy.python) = None
   ∧ (None : option (@float Toy.python)) = None
   ∧ (None : option (@float Toy.python)) = None
   ∧ (None : option (@float Toy.python)) = None)
  ∨ ((∃ r c, pixel [[true; false]; [false; true]] r c = true)
     ∧ is_Some (Some (25 : @float Toy.python))
     ∧ ((@image_mode Toy.python Toy.pillow [[10; 20]; [30; 40]]
         ∈ single_channel_modes
         ∧ (None : option (@float Toy.python)) = None
         ∧ (None : option (@float Toy.python)) = None
         ∧ (None : option (@float Toy.python)) = None)
        ∨ ((@image_mode Toy.python Toy.pillow [[10; 20]; [30; 40]]
            ∉ single_channel_modes)
           ∧ is_Some (None : option (@float Toy.python))
           ∧ is_Some (None : option (@float Toy.python))
           ∧ is_Some (None : option (@float Toy.python))))).
Proof.
  apply (@compute_intensities_cases Toy.python Toy.pillow
           [[10; 20]; [30; 40]] [[true; false]; [false; true]]).
  reflexivity.
Defined.

Lemma sample_run_eq :
  @tasks_loop Toy.python Toy.pillow Toy.world false None 0 sample_tasks ([], [])
  = Ok (sample_run.1, sample_run.2).
Proof. vm_compute. reflexivity. Qed.

Lemma appended_run_eq :
  @tasks_loop Toy.python Toy.pillow Toy.world false None 0 sample_tasks
    ([("a.png__task_7", [sample_row])], [])
  = Ok (appended_run.1, appended_run.2).
Proof. vm_compute. reflexivity. Qed.

Lemma table_groups_well_formed_witness :
  NoDup sample_run.1.*1
  ∧ Forall (λ kv : string * list row,
              kv.2 ≠ []
              ∧ Forall (λ r, image_filename r +:+ "__task_"
                               +:+ py_str (task_id r) = kv.1
                             ∧ ((shape_type r = "mask"
                                 ∧ polygon_points_px r = "")
                                ∨ shape_type r = "polygon")) kv.2)
      sample_run.1.
Proof.
  exact (@table_groups_well_formed Toy.python Toy.pillow Toy.world false None
           sample_tasks sample_run.1 sample_run.2 sample_run_eq).
Defined.

Lemma table_append_only_witness :
  ∃ more,
    appended_run.1 !! 0%nat = Some ("a.png__task_7", [sample_row] ++ more).
Proof.
  exact (@table_append_only Toy.python Toy.pillow Toy.world false None 0
           sample_tasks [("a.png__task_7", [sample_row])] []
           appended_run.1 appended_run.2 appended_run_eq
           0%nat "a.png__task_7" [sample_row] eq_refl).
Defined.


Lemma export_without_annotations_witness :
  @export_segmentation_metrics Toy.python Toy.pillow Toy.world
    [PDict [("id", PInt 1)];
     PDict [("id", PInt 2); ("annotations", PList [])]] true None
  = Ok ({["README.txt" := TextFile readme_text]},
        "application/zip",
        "project-" +:+ string_of_Z (@project_id _ _ Toy.world)
          +:+ "-segmentation.csv.zip").
Proof.
  apply (@export_without_annotations Toy.python Toy.pillow Toy.world true None).
  repeat constructor; eexists; (split; [reflexivity|reflexivity]).
Defined.



Lemma polygon_vertex_not_pair_raises_witness :
  ∃ e,
    @process_result Toy.python Toy.pillow Toy.world false None (PInt 7)
      (PInt 3) sample_data ∅ ∅ 1000 fresh_state malformed_polygon_result
    = Raise e.
Proof.
  exact (@polygon_vertex_not_pair_raises Toy.python Toy.pillow Toy.world
           false None (PInt 7) (PInt 3) sample_data ∅ ∅ 1000 fresh_state
           malformed_polygon_result _ _ [PList [PInt 10]] (PList [PInt 10])
           ValueError eq_refl eq_refl eq_refl eq_refl
           ltac:(constructor) eq_refl ltac:(apply not_elem_of_empty)).
Defined.



Lemma prescan_never_raises_witness :
  ∃ lbl' ta',
    @prescan Toy.python [textarea_result " 42 "; brush_result [1; 2]] (∅, ∅)
    = Ok (lbl', ta')
    ∧ dom (∅ : gmap string string) ⊆ dom lbl'
    ∧ dom (∅ : gmap string (@float Toy.python)) ⊆ dom ta'
    ∧ ∀ k, k ∈ dom lbl' ∪ dom ta' →
           k ∈ dom (∅ : gmap string string)
               ∪ dom (∅ : gmap string (@float Toy.python))
           ∨ ∃ res rid : @pyval Toy.python,
               res ∈ [textarea_result " 42 "; brush_result [1; 2]]
               ∧ py_get res "id" = Ok rid ∧ rid ≠ PNone ∧ k = py_str rid.
Proof.
  apply (@prescan_never_raises Toy.python
           [textarea_result " 42 "; brush_result [1; 2]]).
  repeat constructor; eexists; (split; [reflexivity|]);
    right; eexists; reflexivity.
Defined.

Lemma upload_reference_path_witness :
  url (@Resolver._resolve_image_source _ _ toy_host "upload://a.png" false None)
  = "upload://a.png"
  ∧ (Resolver.isabs (Resolver.drop_chars 9 "upload://a.png") = true →
     path (@Resolver._resolve_image_source _ _ toy_host "upload://a.png"
             false None)
     = Some (Resolver.drop_chars 9 "upload://a.png"))
  ∧ (Resolver.isabs (Resolver.drop_chars 9 "upload://a.png") = false →
     ∃ sep,
       path (@Resolver._resolve_image_source _ _ toy_host "upload://a.png"
               false None)
       = Some (Resolver.path_join2 (@Resolver.MEDIA_ROOT _ _ toy_host)
                 (@Resolver.UPLOAD_DIR _ _ toy_host)
               +:+ sep +:+ Resolver.drop_chars 9 "upload://a.png")
       ∧ (sep = "" ∨ sep = "/")).
Proof.
  apply (@upload_reference_path Toy.python Toy.pillow toy_host
           "upload://a.png" false None).
  reflexivity.
Defined.

Lemma remote_source_needs_download_witness :
  url (@Resolver._resolve_image_source _ _ toy_host "http://h/a.png?x=1"
         true None) = "http://h/a.png?x=1"
  ∧ path (@Resolver._resolve_image_source _ _ toy_host "http://h/a.png?x=1"
            true None) = None
  ∧ filename (@Resolver._resolve_image_source _ _ toy_host
                "http://h/a.png?x=1" true None)
    = Resolver._best_effort_filename_from_url "http://h/a.png?x=1"
  ∧ @Resolver._open_image _ _ toy_host
      (@Resolver._resolve_image_source _ _ toy_host "http://h/a.png?x=1"
         true None) false
    = (None, [])
  ∧ ∃ headers,
      (@Resolver._open_image _ _ toy_host
         (@Resolver._resolve_image_source _ _ toy_host "http://h/a.png?x=1"
            true None) true).2
      = [Resolver.HttpGet "http://h/a.png?x=1" headers].
Proof.
  apply (@remote_source_needs_download Toy.python Toy.pillow toy_host
           "http://h/a.png?x=1" true None).
  - reflexivity.
  - intros u Hu. discriminate Hu.
Defined.

Lemma data_uri_stays_in_process_witness :
  url (@Resolver._resolve_image_source _ _ toy_host "data:image/png,abc"
         false None) = "data:image/png,abc"
  ∧ path (@Resolver._resolve_image_source _ _ toy_host "data:image/png,abc"
            false None) = None
  ∧ filename (@Resolver._resolve_image_source _ _ toy_host
                "data:image/png,abc" false None) = "inline.png"
  ∧ (@Resolver._open_image _ _ toy_host
       (@Resolver._resolve_image_source _ _ toy_host "data:image/png,abc"
          false None) true).2 = [].
Proof.
  apply (@data_uri_stays_in_process Toy.python Toy.pillow toy_host
           "data:image/png,abc" false true None).
  - reflexivity.
  - intros u Hu. discriminate Hu.
Defined.
